(** * gen_vectors.py: the BLAKE2s salt/personalisation test-vector generator

    A shallow embedding of [src/gen_vectors.py] and the properties of the
    vector file it writes.

    - Python [bytes]/[bytearray] values are [list byte].
    - Python [str] values are [string] (all text handled here is ASCII).
    - The [test] dictionary is an association list in insertion order, the
      order [json.dumps] iterates over.
    - [open], [write], [close], [print] and [sys.exit] live in a state and
      exception monad over a small model of the process environment: the
      file system, the file objects with their buffers, standard output,
      the file operations performed so far, and what the operating system
      accepts.  Text written to a file is buffered and reaches the file
      when the buffer is handed over, at the latest in [close], which is
      where a full disk or a size limit usually shows.
    - [json.dumps] and [bytes.hex] follow CPython's behaviour on the values
      the program passes them.
    - [pyblake2.blake2s] is not part of the repository: it is a parameter of
      the development. *)

From Stdlib Require Import Strings.Byte Ascii NArith ZArith Lia.
From stdpp Require Import base option list strings gmap.

(** ** Text constants that cannot be typed inside a literal *)

Definition LF : ascii := ascii_of_N 10.
Definition DQUOTE : ascii := ascii_of_N 34.
Definition BACKSLASH : ascii := ascii_of_N 92.

(** ['\n'] *)
Definition nl : string := String LF EmptyString.

(** ** bytes and hexadecimal text *)

Definition range (n : nat) : list nat := seq 0 n.

(** [bytearray(iterable_of_ints)]: every element must be in [range(0, 256)],
    otherwise Python raises [ValueError] (here [None]). *)
Fixpoint bytearray (ints : list nat) : option (list byte) :=
  match ints with
  | [] => Some []
  | n :: rest =>
      match Byte.of_nat n, bytearray rest with
      | Some b, Some bs => Some (b :: bs)
      | _, _ => None
      end
  end.

(** One lowercase hexadecimal digit, for [d < 16]. *)
Definition hexdigit (d : N) : ascii :=
  if (d <? 10)%N then ascii_of_N (48 + d) else ascii_of_N (87 + d).

Definition byte_hex (b : byte) : string :=
  String (hexdigit (Byte.to_N b / 16)%N)
    (String (hexdigit (Byte.to_N b mod 16)%N) EmptyString).

(** [bytes.hex()]: two lowercase digits per byte, no separator. *)
Fixpoint hex (bs : list byte) : string :=
  match bs with
  | [] => EmptyString
  | b :: rest => byte_hex b +:+ hex rest
  end.

(** The value of a hexadecimal digit, either case. *)
Definition hexval (c : ascii) : option N :=
  let n := N_of_ascii c in
  if ((48 <=? n) && (n <=? 57))%N then Some (n - 48)%N
  else if ((97 <=? n) && (n <=? 102))%N then Some (n - 87)%N
  else if ((65 <=? n) && (n <=? 70))%N then Some (n - 55)%N
  else None.

(** Hex decoding (two digits per byte, as [bytes.fromhex] on text without
    blanks); [None] on malformed text. *)
Fixpoint fromhex (s : string) : option (list byte) :=
  match s with
  | EmptyString => Some []
  | String hi (String lo rest) =>
      match hexval hi, hexval lo, fromhex rest with
      | Some h, Some l, Some bs =>
          match Byte.of_N (16 * h + l)%N with
          | Some b => Some (b :: bs)
          | None => None
          end
      | _, _, _ => None
      end
  | String _ EmptyString => None
  end.

(** ** The [test] dictionary and [json.dumps]

    A Python [dict] keeps insertion order and [json.dumps] iterates in that
    order, so a dictionary with string keys and values is an association
    list. *)

Definition dict : Type := list (string * string).

(** [d[k]] *)
Fixpoint dict_get (k : string) (d : dict) : option string :=
  match d with
  | [] => None
  | (k', v) :: rest => if String.eqb k k' then Some v else dict_get k rest
  end.

(** [json.encoder.py_encode_basestring_ascii], one character (code points
    below 256): printable ASCII other than the quote and the backslash is
    copied, everything else is escaped. *)
Definition escape_char (c : ascii) : string :=
  let n := N_of_ascii c in
  if (n =? 92)%N then "\\"
  else if (n =? 34)%N then String BACKSLASH (String DQUOTE EmptyString)
  else if (n =? 8)%N then "\b"
  else if (n =? 12)%N then "\f"
  else if (n =? 10)%N then "\n"
  else if (n =? 13)%N then "\r"
  else if (n =? 9)%N then "\t"
  else if ((32 <=? n) && (n <=? 126))%N then String c EmptyString
  else "\u00" +:+ String (hexdigit (n / 16)%N)
                   (String (hexdigit (n mod 16)%N) EmptyString).

Fixpoint escape (s : string) : string :=
  match s with
  | EmptyString => EmptyString
  | String c rest => escape_char c +:+ escape rest
  end.

Definition encode_basestring_ascii (s : string) : string :=
  String DQUOTE (escape s +:+ String DQUOTE EmptyString).

(** [sep.join(parts)] *)
Fixpoint join (sep : string) (parts : list string) : string :=
  match parts with
  | [] => EmptyString
  | [p] => p
  | p :: rest => p +:+ sep +:+ join sep rest
  end.

(** [' ' * n] *)
Fixpoint spaces (n : nat) : string :=
  match n with
  | O => EmptyString
  | S n' => String " " (spaces n')
  end.

(** The newline and indentation in front of each item at nesting level 1:
    ['\n' + ' ' * indent]. *)
Definition newline_indent (indent : nat) : string := nl +:+ spaces indent.

(** One item of a dictionary of strings: the encoded key, the key separator
    [": "] and the encoded value. *)
Definition dumps_item (kv : string * string) : string :=
  encode_basestring_ascii kv.1 +:+ ": " +:+ encode_basestring_ascii kv.2.

(** [json.dumps(d, indent=indent)] for a dictionary of strings at nesting
    level 0: with an indent the item separator is [","] followed by a newline
    and [indent] spaces, and the closing brace stands on a line of its own. *)
Definition json_dumps (indent : nat) (d : dict) : string :=
  match d with
  | [] => "{}"
  | _ =>
      let item_separator := "," +:+ newline_indent indent in
      "{" +:+ newline_indent indent
        +:+ join item_separator (map dumps_item d)
        +:+ nl +:+ "}"
  end.

(** Python's [bool] is an [int]: [indent=True] is [indent=1]. *)
Definition int_of_bool (b : bool) : nat := if b then 1%nat else 0%nat.

(** ** The process environment and the effect monad *)

Inductive exn : Type :=
| OSError
| ValueError
| IndexError
| SystemExit (status : Z).

(** A file object returned by [open]: the path it was opened on, whether
    [close] has been called on it, and the text written through it that has
    not reached the operating system yet. *)
Record file_object : Type :=
  FileObject { fo_name : string; fo_closed : bool; fo_buffer : string }.

(** The calls of [open], [fd.write] and [fd.close], oldest first;
    [ok = false] marks the call that raised [OSError]. *)
Inductive event : Type :=
| EvOpen (path : string) (ok : bool)
| EvWrite (fd : nat) (data : string) (ok : bool)
| EvClose (fd : nat) (ok : bool).

(** The first [n] characters of a text, and the rest. *)
Fixpoint str_take (n : nat) (s : string) : string :=
  match n, s with
  | S n', String c rest => String c (str_take n' rest)
  | _, _ => EmptyString
  end.

Fixpoint str_drop (n : nat) (s : string) : string :=
  match n, s with
  | S n', String _ rest => str_drop n' rest
  | _, _ => s
  end.

(** The world a run acts on.  [fs] maps a path to the text the operating
    system holds for it; [objects] are the file objects created so far (a
    file object is identified by its position); [can_open] says at which
    paths a file can be opened for writing.

    Python buffers the text written to a file and hands it to the operating
    system when its buffers fill (or at a newline on a terminal) and when
    the file is closed.  When the buffers fill depends on their sizes and on
    the kind of file, so the world decides: [pushes n] says that the
    [fd.write] call made when [n] calls have been performed hands the
    buffered text over.  [accepts n len] is the number of characters the
    operating system takes when [len] characters are handed over after [n]
    calls; when it takes fewer than [len] (a full disk, a size limit) the
    call raises [OSError] and the rest stays in the buffer. *)
Record world : Type := World {
  fs : gmap string string;
  objects : list file_object;
  stdout : string;
  trace : list event;
  can_open : string -> bool;
  pushes : nat -> bool;
  accepts : nat -> nat -> nat
}.

Definition set_fs (f : gmap string string) (w : world) : world :=
  World f (objects w) (stdout w) (trace w) (can_open w) (pushes w) (accepts w).
Definition set_objects (o : list file_object) (w : world) : world :=
  World (fs w) o (stdout w) (trace w) (can_open w) (pushes w) (accepts w).
Definition set_stdout (s : string) (w : world) : world :=
  World (fs w) (objects w) s (trace w) (can_open w) (pushes w) (accepts w).
Definition log (e : event) (w : world) : world :=
  World (fs w) (objects w) (stdout w) (trace w ++ [e]) (can_open w)
    (pushes w) (accepts w).

(** The number of characters of [data] the operating system takes now. *)
Definition taken (data : string) (w : world) : nat :=
  Nat.min (accepts w (length (trace w)) (String.length data))
    (String.length data).

(** Handing the buffered text [data] of file object [fd] (open on [path])
    to the operating system: what is taken is appended to the file, the
    rest stays in the buffer; [closed] is the state the file object is left
    in. *)
Definition hand_over (fd : nat) (path data : string) (closed : bool)
    (w : world) : world :=
  set_fs (<[path := default EmptyString (fs w !! path)
                      +:+ str_take (taken data w) data]> (fs w))
    (set_objects
       (<[fd := FileObject path closed (str_drop (taken data w) data)]>
          (objects w))
       w).

Definition M (A : Type) : Type := world -> (exn + A) * world.

Definition ret {A} (x : A) : M A := fun w => (inr x, w).
Definition raise {A} (e : exn) : M A := fun w => (inl e, w).
Definition bind {A B} (c : M A) (k : A -> M B) : M B :=
  fun w =>
    match c w with
    | (inr x, w') => k x w'
    | (inl e, w') => (inl e, w')
    end.

Notation "x <- c ;; k" := (bind c (fun x => k))
  (at level 100, c at next level, right associativity).
Notation "c ;; k" := (bind c (fun _ => k))
  (at level 100, right associativity).

(** A [for] loop over a list. *)
Fixpoint for_each {A} (xs : list A) (body : A -> M unit) : M unit :=
  match xs with
  | [] => ret tt
  | x :: rest => body x ;; for_each rest body
  end.

(** A partial pure operation; [None] raises [e]. *)
Definition lift {A} (e : exn) (o : option A) : M A :=
  match o with
  | Some x => ret x
  | None => raise e
  end.

(** [open(path, 'w')]: creates or truncates the file and returns a fresh
    file object with an empty buffer, or raises [OSError]. *)
Definition open_w (path : string) : M nat :=
  fun w =>
    if can_open w path then
      (inr (length (objects w)),
       log (EvOpen path true)
         (set_objects (objects w ++ [FileObject path false EmptyString])
            (set_fs (<[path := EmptyString]> (fs w)) w)))
    else (inl OSError, log (EvOpen path false) w).

(** [fd.write(data)]: [ValueError] on a closed file object; otherwise the
    text goes to the buffer, and when the buffer is handed over and the
    operating system does not take all of it, [OSError]. *)
Definition write (fd : nat) (data : string) : M unit :=
  fun w =>
    match objects w !! fd with
    | Some fo =>
        if fo_closed fo then (inl ValueError, w)
        else
          let buffered := fo_buffer fo +:+ data in
          if pushes w (length (trace w)) then
            if (taken buffered w =? String.length buffered)%nat then
              (inr tt,
               log (EvWrite fd data true)
                 (hand_over fd (fo_name fo) buffered false w))
            else
              (inl OSError,
               log (EvWrite fd data false)
                 (hand_over fd (fo_name fo) buffered false w))
          else
            (inr tt,
             log (EvWrite fd data true)
               (set_objects
                  (<[fd := FileObject (fo_name fo) false buffered]>
                     (objects w))
                  w))
    | None => (inl ValueError, w)
    end.

(** [fd.close()]: hands the buffered text over and closes the file object;
    the file object is closed also when the operating system does not take
    all of the text and the call raises [OSError].  Closing a closed file
    object does nothing. *)
Definition close (fd : nat) : M unit :=
  fun w =>
    match objects w !! fd with
    | Some fo =>
        if fo_closed fo then (inr tt, w)
        else if (taken (fo_buffer fo) w =? String.length (fo_buffer fo))%nat
        then
          (inr tt,
           log (EvClose fd true)
             (hand_over fd (fo_name fo) (fo_buffer fo) true w))
        else
          (inl OSError,
           log (EvClose fd false)
             (hand_over fd (fo_name fo) (fo_buffer fo) true w))
    | None => (inl ValueError, w)
    end.

(** [print(s)] *)
Definition print (s : string) : M unit :=
  fun w => (inr tt, set_stdout (stdout w +:+ s +:+ nl) w).

(** [sys.exit(status)] *)
Definition sys_exit {A} (status : Z) : M A := raise (SystemExit status).

(** ** The program *)

Section Generator.

(** [pyblake2.blake2s(data, key=..., salt=..., person=...).digest()], with
    the library's defaults [data=b''], [key=b''], [salt=b''],
    [person=b'']. *)
Variable blake2s :
  forall (data key salt person : list byte), list byte.

(** [h.hexdigest()] *)
Definition hexdigest (digest : list byte) : string := hex digest.

(** The dictionary built in one iteration of the first loop. *)
Definition salt_test (key_bytes salt_bytes : list byte) : dict :=
  [ ("hash", "blake2s");
    ("in", "");
    ("key", hex key_bytes);
    ("persona", "");
    ("salt", hex salt_bytes);
    ("out", hexdigest (blake2s [] key_bytes salt_bytes [])) ].

(** The dictionary built in one iteration of the second loop. *)
Definition persona_test (key_bytes persona_bytes : list byte) : dict :=
  [ ("hash", "blake2s");
    ("in", "");
    ("key", hex key_bytes);
    ("persona", hex persona_bytes);
    ("salt", "");
    ("out", hexdigest (blake2s [] key_bytes [] persona_bytes)) ].

Definition main (output_fn : string) : M unit :=
  fd <- open_w output_fn ;;
  key_bytes <- lift ValueError (bytearray (range 32)) ;;
  write fd ("[" +:+ nl) ;;
  for_each (range 8) (fun i =>
    salt_bytes <- lift ValueError (bytearray (range (i + 1))) ;;
    let test := salt_test key_bytes salt_bytes in
    write fd (json_dumps (int_of_bool true) test +:+ "," +:+ nl)) ;;
  for_each (range 8) (fun i =>
    persona_bytes <- lift ValueError (bytearray (range (i + 1))) ;;
    let test := persona_test key_bytes persona_bytes in
    write fd ((json_dumps (int_of_bool true) test
                 +:+ (if (i <? 7)%nat then "," else ""))
                +:+ nl)) ;;
  write fd "]" ;;
  close fd.

(** The [__main__] block: [sys.exit] raises, so [main] is not reached
    after the usage message. *)
Definition script (argv : list string) : M unit :=
  (if (length argv <? 2)%nat then
     print "Usage: gen_vectors.py <path to output file>" ;;
     sys_exit 1
   else ret tt) ;;
  output_fn <- lift IndexError (argv !! 1%nat) ;;
  main output_fn.

End Generator.

(** What the interpreter makes of the script's outcome: status 0 on normal
    termination, the argument of [sys.exit], and 1 for any other uncaught
    exception. *)
Definition exit_status (r : exn + unit) : Z :=
  match r with
  | inr _ => 0
  | inl (SystemExit status) => status
  | inl _ => 1
  end.

(** ** What a run writes: the records and the pieces of text *)

(** The bytes [0, 1, ..., n-1], the value of [bytearray(range(n))] for
    [n <= 256]. *)
Definition counting (n : nat) : list byte := default [] (bytearray (range n)).

(** Concatenation of pieces of text. *)
Definition cat (pieces : list string) : string :=
  foldr String.append EmptyString pieces.

(** The successful writes of [pieces] through file object [fd], as events. *)
Definition written (fd : nat) (pieces : list string) : list event :=
  map (fun d => EvWrite fd d true) pieces.

Section Behaviour.

Variable blake2s :
  forall (data key salt person : list byte), list byte.

(** The dictionaries of the first and of the second loop, by loop index. *)
Definition salt_record (i : nat) : dict :=
  salt_test blake2s (counting 32) (counting (i + 1)).
Definition persona_record (i : nat) : dict :=
  persona_test blake2s (counting 32) (counting (i + 1)).

(** The generated records, in the order the loops build them. *)
Definition vectors : list dict :=
  map salt_record (range 8) ++ map persona_record (range 8).

(** The text of each [fd.write] call of the two loops. *)
Definition salt_chunk (i : nat) : string :=
  json_dumps (int_of_bool true) (salt_record i) +:+ "," +:+ nl.
Definition persona_chunk (i : nat) : string :=
  (json_dumps (int_of_bool true) (persona_record i)
     +:+ (if (i <? 7)%nat then "," else ""))
    +:+ nl.

(** The arguments of the 18 [fd.write] calls of [main], in order. *)
Definition chunks : list string :=
  ["[" +:+ nl] ++ map salt_chunk (range 8)
    ++ map persona_chunk (range 8) ++ ["]"].

(** The text of a completely written vector file. *)
Definition file_text : string := cat chunks.

End Behaviour.


(** ** JSON texts (RFC 8259), the fragment without numbers and literals

    [json_value t v] says that the text [t] is a JSON value denoting [v].
    The only values a vector file holds are strings, objects and arrays;
    every text derivable here is a JSON text of the RFC. *)

#[local] Unset Elimination Schemes.
Inductive json : Type :=
| JString (s : string)
| JArray (items : list json)
| JObject (members : list (string * json)).
#[local] Set Elimination Schemes.

(** Insignificant whitespace: space, tab, line feed, carriage return. *)
Definition ws_char (c : ascii) : bool :=
  let n := N_of_ascii c in
  ((n =? 32) || (n =? 9) || (n =? 10) || (n =? 13))%N.

Fixpoint ws (s : string) : bool :=
  match s with
  | EmptyString => true
  | String c rest => ws_char c && ws rest
  end.

(** A character that may stand for itself inside a string. *)
Definition unescaped (c : ascii) : bool :=
  let n := N_of_ascii c in
  ((32 <=? n) && negb (n =? 34) && negb (n =? 92))%N.

(** The character denoted by a two-character escape [\e]. *)
Definition short_escape (e : ascii) : option ascii :=
  let n := N_of_ascii e in
  if (n =? 34)%N then Some DQUOTE
  else if (n =? 92)%N then Some BACKSLASH
  else if (n =? 47)%N then Some "/"%char
  else if (n =? 98)%N then Some (ascii_of_N 8)
  else if (n =? 102)%N then Some (ascii_of_N 12)
  else if (n =? 110)%N then Some LF
  else if (n =? 114)%N then Some (ascii_of_N 13)
  else if (n =? 116)%N then Some (ascii_of_N 9)
  else None.

(** The character denoted by [ꯍ], for code points below 256. *)
Definition unicode_escape (a b c d : ascii) : option ascii :=
  match hexval a, hexval b, hexval c, hexval d with
  | Some va, Some vb, Some vc, Some vd =>
      let n := (((va * 16 + vb) * 16 + vc) * 16 + vd)%N in
      if (n <? 256)%N then Some (ascii_of_N n) else None
  | _, _, _, _ => None
  end.

(** [json_chars raw s]: the text [raw] between two quotes denotes [s]. *)
Inductive json_chars : string -> string -> Prop :=
| jc_nil : json_chars EmptyString EmptyString
| jc_plain c raw s :
    unescaped c = true ->
    json_chars raw s ->
    json_chars (String c raw) (String c s)
| jc_short e c raw s :
    short_escape e = Some c ->
    json_chars raw s ->
    json_chars (String BACKSLASH (String e raw)) (String c s)
| jc_unicode a b c d ch raw s :
    unicode_escape a b c d = Some ch ->
    json_chars raw s ->
    json_chars
      (String BACKSLASH (String "u" (String a (String b (String c (String d raw))))))
      (String ch s).

(** A string literal. *)
Definition quoted (raw : string) : string :=
  String DQUOTE (raw +:+ String DQUOTE EmptyString).

Inductive json_value : string -> json -> Prop :=
| jv_string raw s :
    json_chars raw s ->
    json_value (quoted raw) (JString s)
| jv_array_empty w :
    ws w = true ->
    json_value ("[" +:+ w +:+ "]") (JArray [])
| jv_array body items :
    json_elements body items ->
    json_value ("[" +:+ body +:+ "]") (JArray items)
| jv_object_empty w :
    ws w = true ->
    json_value ("{" +:+ w +:+ "}") (JObject [])
| jv_object body members :
    json_members body members ->
    json_value ("{" +:+ body +:+ "}") (JObject members)

(** One or more values separated by commas, none after the last. *)
with json_elements : string -> list json -> Prop :=
| je_last w1 t v w2 :
    ws w1 = true -> json_value t v -> ws w2 = true ->
    json_elements (w1 +:+ t +:+ w2) [v]
| je_more w1 t v w2 rest items :
    ws w1 = true -> json_value t v -> ws w2 = true ->
    json_elements rest items ->
    json_elements (w1 +:+ t +:+ w2 +:+ "," +:+ rest) (v :: items)

(** One or more [name : value] members separated by commas. *)
with json_members : string -> list (string * json) -> Prop :=
| jm_last w1 kraw k w2 w3 t v w4 :
    ws w1 = true -> json_chars kraw k -> ws w2 = true ->
    ws w3 = true -> json_value t v -> ws w4 = true ->
    json_members (w1 +:+ quoted kraw +:+ w2 +:+ ":" +:+ w3 +:+ t +:+ w4)
      [(k, v)]
| jm_more w1 kraw k w2 w3 t v w4 rest members :
    ws w1 = true -> json_chars kraw k -> ws w2 = true ->
    ws w3 = true -> json_value t v -> ws w4 = true ->
    json_members rest members ->
    json_members
      (w1 +:+ quoted kraw +:+ w2 +:+ ":" +:+ w3 +:+ t +:+ w4 +:+ ","
          +:+ rest)
      ((k, v) :: members).

(** A JSON text: a value with whitespace around it. *)
Definition json_text (t : string) (v : json) : Prop :=
  exists w1 body w2,
    t = w1 +:+ body +:+ w2 /\ ws w1 = true /\ ws w2 = true
    /\ json_value body v.

(** The JSON value of a dictionary of strings. *)
Definition json_of_dict (d : dict) : json :=
  JObject (map (fun kv => (kv.1, JString kv.2)) d).

(** ** The properties of the generated records and of a run *)

(** The bytes a hex-encoded field of a record decodes to. *)
Definition field_bytes (name : string) (r : dict) : option (list byte) :=
  dict_get name r ≫= fromhex.

(** [bs] is the byte sequence [0, 1, ..., n-1]. *)
Definition counts_up (n : nat) (bs : list byte) : Prop :=
  length bs = n /\ map Byte.to_nat bs = seq 0 n.

(** Record [i] of the salt sweep: no persona, and a salt that decodes to
    [0, 1, ..., i]. *)
Definition salt_sweep_shape (i : nat) (r : dict) : Prop :=
  dict_get "persona" r = Some EmptyString
  /\ exists s bs,
       dict_get "salt" r = Some s /\ s <> EmptyString
       /\ fromhex s = Some bs /\ counts_up (i + 1) bs.

(** Record [i] of the persona sweep: no salt, and a persona that decodes to
    [0, 1, ..., i]. *)
Definition persona_sweep_shape (i : nat) (r : dict) : Prop :=
  dict_get "salt" r = Some EmptyString
  /\ exists s bs,
       dict_get "persona" r = Some s /\ s <> EmptyString
       /\ fromhex s = Some bs /\ counts_up (i + 1) bs.

Definition exactly_one_nonempty (r : dict) : Prop :=
  exists s p,
    dict_get "salt" r = Some s /\ dict_get "persona" r = Some p
    /\ ((s <> EmptyString /\ p = EmptyString)
        \/ (s = EmptyString /\ p <> EmptyString)).

(** The constant fields of a record, [key] being what the [key] field
    decodes to. *)
Definition fixed_fields (key : list byte) (r : dict) : Prop :=
  dict_get "hash" r = Some "blake2s"
  /\ dict_get "in" r = Some EmptyString
  /\ field_bytes "key" r = Some key.

(** The write events of a sequence of records: each record serialised with
    an indent of one, a comma after every record but the last, and a
    newline. *)
Definition record_writes (fd : nat) (records : list dict) : list event :=
  imap (fun i r =>
          EvWrite fd
            (json_dumps 1 r
               +:+ (if (S i <? length records)%nat then "," else "")
               +:+ nl)
            true)
       records.

(** [records] are the records the run from [w] to [w'] generated: the run
    opened [output_fn], made one [fd.write] call per record, in order,
    between those of the two brackets, closed the file, and left in it a
    JSON array of the records. *)
Definition generated (output_fn : string) (w w' : world)
    (records : list dict) : Prop :=
  trace w'
  = trace w
      ++ [EvOpen output_fn true;
          EvWrite (length (objects w)) ("[" +:+ nl) true]
      ++ record_writes (length (objects w)) records
      ++ [EvWrite (length (objects w)) "]" true;
          EvClose (length (objects w)) true]
  /\ exists text,
       fs w' !! output_fn = Some text
       /\ json_text text (JArray (map json_of_dict records)).

(** A call that raised [OSError]. *)
Definition failed (e : event) : bool :=
  match e with
  | EvOpen _ ok => negb ok
  | EvWrite _ _ ok => negb ok
  | EvClose _ ok => negb ok
  end.

Section Properties.

Variable blake2s :
  forall (data key salt person : list byte), list byte.

(** The [out] field of [r] is the hex text of the digest of the message in
    [in] under the key, salt and persona the other fields decode to. *)
Definition out_is_digest (r : dict) : Prop :=
  exists message key salt persona,
    field_bytes "in" r = Some message
    /\ field_bytes "key" r = Some key
    /\ field_bytes "salt" r = Some salt
    /\ field_bytes "persona" r = Some persona
    /\ dict_get "out" r = Some (hex (blake2s message key salt persona)).

(** The file object [main] opened is closed when [main] exits. *)
Definition handle_closed_on_exit (output_fn : string) (w : world) : Prop :=
  exists fo,
    objects (main blake2s output_fn w).2 !! length (objects w) = Some fo
    /\ fo_closed fo = true.

End Properties.

(** ** Sample environments

    A stand-in for the external hash (the theorems below hold for every hash
    function; the samples only need one to run) and four worlds: one in
    which every call succeeds and the text reaches the file at [close]; one
    in which every write is handed over at once, as on a terminal, and the
    operating system takes nothing at the call made after [k] earlier ones;
    one in which the text is handed over at [close] and the operating system
    takes at most [limit] characters (a full device when [limit] is 0, a
    file size limit otherwise); and one in which no file can be opened. *)

Definition sample_hash (data key salt person : list byte) : list byte :=
  data ++ key ++ salt ++ person.

Definition calm_world : world :=
  World ∅ [] EmptyString [] (fun _ => true) (fun _ => false)
    (fun _ len => len).

Definition failing_world (k : nat) : world :=
  World ∅ [] EmptyString [] (fun _ => true) (fun _ => true)
    (fun n len => if (n =? k)%nat then 0%nat else len).

Definition limited_world (limit : nat) : world :=
  World ∅ [] EmptyString [] (fun _ => true) (fun _ => false)
    (fun _ len => Nat.min len limit).

Definition readonly_world : world :=
  World ∅ [] EmptyString [] (fun _ => false) (fun _ => false)
    (fun _ len => len).

(** ** Further notions used to describe the records and the runs *)

(** A lowercase hexadecimal digit. *)
Definition lower_hex_char (c : ascii) : bool :=
  let n := N_of_ascii c in
  (((48 <=? n) && (n <=? 57)) || ((97 <=? n) && (n <=? 102)))%N.

Fixpoint lower_hex (s : string) : bool :=
  match s with
  | EmptyString => true
  | String c rest => lower_hex_char c && lower_hex rest
  end.

(** The string encoder leaves [s] as it is, between two quotes. *)
Definition verbatim (s : string) : Prop :=
  encode_basestring_ascii s = quoted s.

(** The file operation [e] is on the path [p] or on the file object [fd]. *)
Definition own_event (p : string) (fd : nat) (e : event) : bool :=
  match e with
  | EvOpen q _ => String.eqb q p
  | EvWrite f _ _ => (f =? fd)%nat
  | EvClose f _ => (f =? fd)%nat
  end.

Definition is_open_event (e : event) : bool :=
  match e with
  | EvOpen _ _ => true
  | _ => false
  end.

(** The world [w] with a file holding [content] at [path]. *)
Definition with_file (path content : string) (w : world) : world :=
  set_fs (<[path := content]> (fs w)) w.

(** A stand-in hash with 32-byte digests. *)
Definition sample_hash32 (data key salt person : list byte) : list byte :=
  replicate 32 x00.

(** The field [name] of [r] is lowercase hexadecimal text of even length
    (possibly empty) that decodes to bytes. *)
Definition hex_field (r : dict) (name : string) : Prop :=
  exists s,
    dict_get name r = Some s /\ lower_hex s = true
    /\ Nat.Even (String.length s) /\ is_Some (fromhex s).

(** The record [r] holds the digest of a call of the hash within the limits
    of BLAKE2s: an empty message, a key of 32 bytes, at most 8 bytes of salt
    and at most 8 bytes of persona. *)
Definition within_limits
    (blake2s : forall (data key salt person : list byte), list byte)
    (r : dict) : Prop :=
  exists key salt persona,
    field_bytes "key" r = Some key
    /\ field_bytes "salt" r = Some salt
    /\ field_bytes "persona" r = Some persona
    /\ length key = 32%nat
    /\ (length salt <= 8)%nat
    /\ (length persona <= 8)%nat
    /\ dict_get "out" r = Some (hex (blake2s [] key salt persona)).
(** ** Sanity checks of the hexadecimal codec *)

Example hex_sample : hex [x00; x1f; xa7; xff] = "001fa7ff".
Proof. reflexivity. Qed.

Example fromhex_sample : fromhex "001fa7ff" = Some [x00; x1f; xa7; xff].
Proof. reflexivity. Qed.


(** ** Text lemmas *)

Lemma append_nil_l (t : string) : "" +:+ t = t.
Proof. reflexivity. Qed.

Lemma append_cons (c : ascii) (s t : string) :
  String c s +:+ t = String c (s +:+ t).
Proof. reflexivity. Qed.

Lemma append_nil_r (s : string) : s +:+ "" = s.
Proof.
  induction s as [|c s IH]; [reflexivity |].
  by rewrite append_cons, IH.
Qed.

Lemma append_assoc (s t u : string) : (s +:+ t) +:+ u = s +:+ (t +:+ u).
Proof.
  induction s as [|c s IH]; [reflexivity |].
  by rewrite !append_cons, IH.
Qed.

Lemma cat_app (xs ys : list string) : cat (xs ++ ys) = cat xs +:+ cat ys.
Proof.
  induction xs as [|x xs IH]; simpl; [reflexivity |].
  by rewrite IH, append_assoc.
Qed.

(** ** Laws of the effect monad (pointwise, no extensionality needed) *)

Lemma bind_assoc {A B C} (c : M A) (k1 : A -> M B) (k2 : B -> M C) w :
  bind (bind c k1) k2 w = bind c (fun x => bind (k1 x) k2) w.
Proof. unfold bind. destruct (c w) as [[e|x] w']; reflexivity. Qed.

Lemma bind_ret_r {A} (c : M A) w : bind c ret w = c w.
Proof. unfold bind, ret. destruct (c w) as [[e|x] w']; reflexivity. Qed.

Lemma bind_cong {A B} (c c' : M A) (k k' : A -> M B) w :
  (forall w0, c w0 = c' w0) ->
  (forall x w0, k x w0 = k' x w0) ->
  bind c k w = bind c' k' w.
Proof.
  intros Hc Hk. unfold bind. rewrite Hc.
  destruct (c' w) as [[e|x] w']; [reflexivity | apply Hk].
Qed.

Lemma for_each_cong {A} (xs : list A) (f g : A -> M unit) w :
  (forall x, In x xs -> forall w0, f x w0 = g x w0) ->
  for_each xs f w = for_each xs g w.
Proof.
  revert w. induction xs as [|x xs IH]; intros w H; simpl; [reflexivity |].
  apply bind_cong.
  - intros w0. apply H. by left.
  - intros _ w0. apply IH. intros y Hy. apply H. by right.
Qed.

Lemma for_each_map {A B} (g : A -> B) (xs : list A) (f : B -> M unit) w :
  for_each (map g xs) f w = for_each xs (fun x => f (g x)) w.
Proof.
  revert w. induction xs as [|x xs IH]; intros w; simpl; [reflexivity |].
  apply bind_cong; [reflexivity | intros _ w0; apply IH].
Qed.

Lemma for_each_app_then {A B} (xs ys : list A) (f : A -> M unit) (k : M B) w :
  bind (for_each (xs ++ ys) f) (fun _ => k) w
  = bind (for_each xs f) (fun _ => bind (for_each ys f) (fun _ => k)) w.
Proof.
  revert w. induction xs as [|x xs IH]; intros w; simpl.
  - reflexivity.
  - rewrite !bind_assoc. apply bind_cong; [reflexivity |].
    intros _ w0. apply IH.
Qed.

Lemma for_each_one_then {A B} (x : A) (f : A -> M unit) (k : M B) w :
  bind (for_each [x] f) (fun _ => k) w = bind (f x) (fun _ => k) w.
Proof.
  simpl. rewrite bind_assoc. apply bind_cong; reflexivity.
Qed.

(** ** [main] as a sequence of writes *)

Ltac world_proj :=
  unfold hand_over, log, set_fs, set_objects, set_stdout;
  cbn [fs objects stdout trace can_open pushes accepts].

Section MainSpec.

Variable blake2s :
  forall (data key salt person : list byte), list byte.

Lemma lift_some {A B} e (x : A) (k : A -> M B) w :
  bind (lift e (Some x)) k w = k x w.
Proof. reflexivity. Qed.

Lemma salt_body fd i w :
  In i (range 8) ->
  bind (lift ValueError (bytearray (range (i + 1))))
    (fun salt_bytes =>
       write fd (json_dumps (int_of_bool true)
                   (salt_test blake2s (counting 32) salt_bytes)
                   +:+ "," +:+ nl)) w
  = write fd (salt_chunk blake2s i) w.
Proof.
  intros Hi. simpl in Hi.
  repeat (destruct Hi as [<- | Hi]; [reflexivity |]). destruct Hi.
Qed.

Lemma persona_body fd i w :
  In i (range 8) ->
  bind (lift ValueError (bytearray (range (i + 1))))
    (fun persona_bytes =>
       write fd ((json_dumps (int_of_bool true)
                    (persona_test blake2s (counting 32) persona_bytes)
                    +:+ (if (i <? 7)%nat then "," else ""))
                   +:+ nl)) w
  = write fd (persona_chunk blake2s i) w.
Proof.
  intros Hi. simpl in Hi.
  repeat (destruct Hi as [<- | Hi]; [reflexivity |]). destruct Hi.
Qed.

Lemma main_as_writes output_fn w :
  main blake2s output_fn w
  = bind (open_w output_fn)
      (fun fd => bind (for_each (chunks blake2s) (write fd))
                   (fun _ => close fd)) w.
Proof.
  unfold main. apply bind_cong; [reflexivity |]. intros fd w0.
  change (bytearray (range 32)) with (Some (counting 32)).
  rewrite lift_some. unfold chunks.
  rewrite for_each_app_then, for_each_one_then.
  apply bind_cong; [reflexivity |]. intros _ w1.
  rewrite for_each_app_then. apply bind_cong.
  { intros w2. rewrite for_each_map. apply for_each_cong.
    intros i Hi w3. by apply salt_body. }
  intros _ w2. rewrite for_each_app_then.
  apply bind_cong.
  { intros w3. rewrite for_each_map. apply for_each_cong.
    intros i Hi w4. by apply persona_body. }
  intros _ w3. by rewrite for_each_one_then.
Qed.

End MainSpec.


(** ** Taking and dropping characters *)

Lemma str_take_drop n s : str_take n s +:+ str_drop n s = s.
Proof.
  revert n. induction s as [|c s IH]; intros [|n]; try reflexivity.
  cbn [str_take str_drop]. by rewrite append_cons, IH.
Qed.

Lemma str_drop_nonempty n s :
  (n < String.length s)%nat -> str_drop n s <> EmptyString.
Proof.
  revert n. induction s as [|c s IH]; intros n Hn; cbn [String.length] in Hn.
  - lia.
  - destruct n as [|n]; [discriminate |].
    cbn [str_drop]. apply IH. lia.
Qed.

Lemma str_take_all s : str_take (String.length s) s = s.
Proof. induction s as [|c s IH]; [reflexivity |]. cbn. by rewrite IH. Qed.

Lemma str_drop_all s : str_drop (String.length s) s = EmptyString.
Proof. induction s as [|c s IH]; [reflexivity | exact IH]. Qed.

(** ** The file operations, one at a time *)

(** What a call of [fd.write] does to an open file object whose buffer is
    [b], on a file holding [c]: nothing of [c], [b] and the new text is
    lost when it returns, and when it raises the file holds less than that
    text. *)
Lemma write_step fd p d w c b r w1 :
  objects w !! fd = Some (FileObject p false b) ->
  fs w !! p = Some c ->
  write fd d w = (r, w1) ->
  stdout w1 = stdout w /\ can_open w1 = can_open w
  /\ pushes w1 = pushes w /\ accepts w1 = accepts w
  /\ exists c1 b1,
       fs w1 = <[p := c1]> (fs w)
       /\ objects w1 = <[fd := FileObject p false b1]> (objects w)
       /\ match r with
          | inr _ =>
              c1 +:+ b1 = c +:+ b +:+ d
              /\ trace w1 = trace w ++ [EvWrite fd d true]
          | inl e =>
              e = OSError
              /\ trace w1 = trace w ++ [EvWrite fd d false]
              /\ exists rest,
                   rest <> EmptyString /\ c1 +:+ rest = c +:+ b +:+ d
          end.
Proof.
  intros Ho Hc. unfold write. rewrite Ho. cbn [fo_closed fo_name fo_buffer].
  destruct (pushes w (length (trace w))).
  - destruct (taken (b +:+ d) w =? String.length (b +:+ d))%nat eqn:Hn;
      intros [= <- <-]; world_proj; rewrite Hc; cbn [default];
      (do 4 (split; [reflexivity |]));
      exists (c +:+ str_take (taken (b +:+ d) w) (b +:+ d)),
        (str_drop (taken (b +:+ d) w) (b +:+ d));
      (split; [reflexivity |]); (split; [reflexivity |]).
    + split; [| reflexivity]. by rewrite append_assoc, str_take_drop.
    + split; [reflexivity |]. split; [reflexivity |].
      exists (str_drop (taken (b +:+ d) w) (b +:+ d)). split.
      * apply str_drop_nonempty. apply Nat.eqb_neq in Hn.
        unfold taken in *. lia.
      * by rewrite append_assoc, str_take_drop.
  - intros [= <- <-]; world_proj.
    do 4 (split; [reflexivity |]). exists c, (b +:+ d).
    split; [by rewrite insert_id |]. by repeat split.
Qed.

(** What [fd.close] does to an open file object: the file object is closed
    in any case; when the call returns the file holds the buffered text too,
    and when it raises the file holds less. *)
Lemma close_step fd p w c b r w1 :
  objects w !! fd = Some (FileObject p false b) ->
  fs w !! p = Some c ->
  close fd w = (r, w1) ->
  stdout w1 = stdout w /\ can_open w1 = can_open w
  /\ pushes w1 = pushes w /\ accepts w1 = accepts w
  /\ exists c1 b1,
       fs w1 = <[p := c1]> (fs w)
       /\ objects w1 = <[fd := FileObject p true b1]> (objects w)
       /\ match r with
          | inr _ =>
              c1 = c +:+ b /\ b1 = EmptyString
              /\ trace w1 = trace w ++ [EvClose fd true]
          | inl e =>
              e = OSError
              /\ trace w1 = trace w ++ [EvClose fd false]
              /\ exists rest, rest <> EmptyString /\ c1 +:+ rest = c +:+ b
          end.
Proof.
  intros Ho Hc. unfold close. rewrite Ho. cbn [fo_closed fo_name fo_buffer].
  destruct (taken b w =? String.length b)%nat eqn:Hn;
    intros [= <- <-]; world_proj; rewrite Hc; cbn [default];
    (do 4 (split; [reflexivity |]));
    exists (c +:+ str_take (taken b w) b), (str_drop (taken b w) b);
    (split; [reflexivity |]); (split; [reflexivity |]).
  - apply Nat.eqb_eq in Hn. rewrite Hn, str_take_all, str_drop_all.
    by repeat split.
  - split; [reflexivity |]. split; [reflexivity |].
    exists (str_drop (taken b w) b). split.
    + apply str_drop_nonempty. apply Nat.eqb_neq in Hn.
      unfold taken in *. lia.
    + by rewrite append_assoc, str_take_drop.
Qed.

(** A run of writes through an open file object: when all return, the file
    and the buffer together hold the old text and all the pieces; when one
    raises, it ends the run and the file holds less than the text written
    up to and including it. *)
Lemma for_each_write_run fd p (ds : list string) : forall w c b r w',
  objects w !! fd = Some (FileObject p false b) ->
  fs w !! p = Some c ->
  for_each ds (write fd) w = (r, w') ->
  stdout w' = stdout w /\ can_open w' = can_open w
  /\ pushes w' = pushes w /\ accepts w' = accepts w
  /\ exists c' b',
       fs w' = <[p := c']> (fs w)
       /\ objects w' = <[fd := FileObject p false b']> (objects w)
       /\ match r with
          | inr _ =>
              c' +:+ b' = c +:+ b +:+ cat ds
              /\ trace w' = trace w ++ written fd ds
          | inl e =>
              e = OSError
              /\ exists k d rest,
                   ds !! k = Some d
                   /\ trace w'
                      = trace w ++ written fd (take k ds)
                          ++ [EvWrite fd d false]
                   /\ rest <> EmptyString
                   /\ c' +:+ rest = c +:+ b +:+ cat (take (S k) ds)
          end.
Proof.
  induction ds as [|d ds IH]; intros w c b r w' Ho Hc Hrun.
  - injection Hrun as <- <-. do 4 (split; [reflexivity |]).
    exists c, b. split; [by rewrite insert_id |].
    split; [by rewrite list_insert_id |].
    split; [by rewrite append_nil_r | by rewrite app_nil_r].
  - cbn [for_each] in Hrun. unfold bind in Hrun.
    destruct (write fd d w) as [[e | []] w1] eqn:Hw;
      apply (write_step _ _ _ _ _ _ _ _ Ho Hc) in Hw
        as (Hs & Hco & Hpu & Hac & c1 & b1 & Hfs & Hob & Hr).
    + injection Hrun as <- <-. destruct Hr as (-> & Ht & rest & Hne & Hrest).
      do 4 (split; [assumption |]). exists c1, b1.
      split; [exact Hfs |]. split; [exact Hob |]. split; [reflexivity |].
      exists 0%nat, d, rest. split; [reflexivity |].
      split; [exact Ht |]. split; [exact Hne |].
      cbn [take cat foldr]. by rewrite append_nil_r.
    + destruct Hr as [Hcb Ht].
      apply (IH w1 c1 b1) in Hrun
        as (Hs' & Hco' & Hpu' & Hac' & c' & b' & Hfs' & Hob' & Hr').
      * split; [congruence |]. split; [congruence |].
        split; [congruence |]. split; [congruence |].
        exists c', b'.
        split; [by rewrite Hfs', Hfs, insert_insert_eq |].
        split; [by rewrite Hob', Hob, list_insert_insert_eq |].
        destruct r as [e | u].
        -- destruct Hr' as (-> & k & d' & rest & Hk & Ht' & Hne & Hrest).
           split; [reflexivity |]. exists (S k), d', rest.
           split; [exact Hk |]. split.
           { rewrite Ht', Ht. cbn [take written map].
             by rewrite <- app_assoc. }
           split; [exact Hne |].
           rewrite Hrest. rewrite <- !append_assoc, Hcb.
           cbn [take cat foldr]. by rewrite !append_assoc.
        -- destruct Hr' as [Hcb' Ht']. split.
           { rewrite Hcb'. rewrite <- !append_assoc, Hcb.
             cbn [cat foldr]. by rewrite !append_assoc. }
           rewrite Ht', Ht. cbn [written map]. by rewrite <- app_assoc.
      * rewrite Hob. apply list_lookup_insert_eq. by eapply lookup_lt_Some.
      * rewrite Hfs. apply lookup_insert_eq.
Qed.

(** ** The outcomes of [main] *)

Section MainRun.

Variable blake2s :
  forall (data key salt person : list byte), list byte.

(** Every run of [main]: the [open] fails; or all calls succeed and the
    file holds the complete text; or a write raises, with the file object
    left open; or [close] raises after the 18 writes, with the file object
    closed.  In the last two cases the file holds less than the text written
    so far. *)
Lemma main_run output_fn w r w' :
  main blake2s output_fn w = (r, w') ->
  stdout w' = stdout w /\ can_open w' = can_open w
  /\ pushes w' = pushes w /\ accepts w' = accepts w
  /\ ((can_open w output_fn = false
       /\ r = inl OSError
       /\ fs w' = fs w /\ objects w' = objects w
       /\ trace w' = trace w ++ [EvOpen output_fn false])
      \/ (can_open w output_fn = true
          /\ exists c' closed b',
               fs w' = <[output_fn := c']> (fs w)
               /\ objects w' = objects w ++ [FileObject output_fn closed b']
               /\ ((r = inr tt /\ c' = file_text blake2s
                    /\ closed = true /\ b' = EmptyString
                    /\ trace w'
                       = trace w ++ EvOpen output_fn true
                           :: written (length (objects w)) (chunks blake2s)
                           ++ [EvClose (length (objects w)) true])
                   \/ (r = inl OSError /\ closed = false
                       /\ exists k d rest,
                            chunks blake2s !! k = Some d
                            /\ trace w'
                               = trace w ++ EvOpen output_fn true
                                   :: written (length (objects w))
                                        (take k (chunks blake2s))
                                   ++ [EvWrite (length (objects w)) d false]
                            /\ rest <> EmptyString
                            /\ c' +:+ rest
                               = cat (take (S k) (chunks blake2s)))
                   \/ (r = inl OSError /\ closed = true
                       /\ trace w'
                          = trace w ++ EvOpen output_fn true
                              :: written (length (objects w))
                                   (chunks blake2s)
                              ++ [EvClose (length (objects w)) false]
                       /\ exists rest,
                            rest <> EmptyString
                            /\ c' +:+ rest = file_text blake2s)))).
Proof.
  rewrite main_as_writes. unfold bind at 1. unfold open_w.
  destruct (can_open w output_fn) eqn:Hopen.
  2: { intros [= <- <-]. do 4 (split; [reflexivity |]). left.
       by repeat split. }
  set (fd := length (objects w)).
  set (w0 := log _ _).
  assert (Ho0 : objects w0 !! fd
                = Some (FileObject output_fn false EmptyString))
    by (by apply list_lookup_middle).
  assert (Hc0 : fs w0 !! output_fn = Some EmptyString)
    by apply lookup_insert_eq.
  unfold bind.
  destruct (for_each (chunks blake2s) (write fd) w0) as [[e | []] w1] eqn:Hw;
    apply (for_each_write_run _ _ _ _ _ _ _ _ Ho0 Hc0) in Hw
      as (Hs & Hco & Hpu & Hac & c1 & b1 & Hfs & Hob & Hr).
  - intros [= <- <-]. do 4 (split; [assumption |]). right.
    split; [reflexivity |]. exists c1, false, b1.
    split; [by rewrite Hfs; apply insert_insert_eq |].
    split.
    { rewrite Hob. subst w0 fd. world_proj.
      by rewrite insert_app_r_alt, Nat.sub_diag. }
    right. left. destruct Hr as (-> & k & d & rest & Hk & Ht & Hne & Hrest).
    split; [reflexivity |]. split; [reflexivity |].
    exists k, d, rest. split; [exact Hk |]. split; [| by split].
    rewrite Ht. subst w0. world_proj. by rewrite <- app_assoc.
  - destruct Hr as [Hcb Ht]. intros Hclose.
    assert (Ho1 : objects w1 !! fd = Some (FileObject output_fn false b1)).
    { rewrite Hob. apply list_lookup_insert_eq. by eapply lookup_lt_Some. }
    assert (Hc1 : fs w1 !! output_fn = Some c1)
      by (rewrite Hfs; apply lookup_insert_eq).
    apply (close_step _ _ _ _ _ _ _ Ho1 Hc1) in Hclose
      as (Hs' & Hco' & Hpu' & Hac' & c2 & b2 & Hfs' & Hob' & Hr').
    split; [by rewrite Hs', Hs |]. split; [by rewrite Hco', Hco |].
    split; [by rewrite Hpu', Hpu |]. split; [by rewrite Hac', Hac |].
    right. split; [reflexivity |]. exists c2, true, b2.
    split.
    { rewrite Hfs', Hfs, insert_insert_eq. subst w0. world_proj.
      apply insert_insert_eq. }
    split.
    { rewrite Hob', Hob, list_insert_insert_eq. subst w0 fd. world_proj.
      by rewrite insert_app_r_alt, Nat.sub_diag. }
    destruct r as [e | []].
    + right. right. destruct Hr' as (-> & Ht' & rest & Hne & Hrest).
      split; [reflexivity |]. split; [reflexivity |]. split.
      * rewrite Ht', Ht. subst w0. world_proj. by rewrite <- !app_assoc.
      * exists rest. split; [exact Hne |].
        rewrite Hrest, Hcb. reflexivity.
    + left. destruct Hr' as (-> & -> & Ht').
      split; [reflexivity |]. split; [by rewrite Hcb |].
      split; [reflexivity |]. split; [reflexivity |].
      rewrite Ht', Ht. subst w0. world_proj. by rewrite <- !app_assoc.
Qed.

End MainRun.

(** ** The hexadecimal codec *)

Lemma fromhex_byte_hex b s :
  fromhex (byte_hex b +:+ s)
  = match fromhex s with
    | Some bs => Some (b :: bs)
    | None => None
    end.
Proof. destruct b; reflexivity. Qed.

Lemma fromhex_hex bs : fromhex (hex bs) = Some bs.
Proof.
  induction bs as [|b bs IH]; [reflexivity |].
  cbn [hex]. by rewrite fromhex_byte_hex, IH.
Qed.

Lemma hex_cons_nonempty b bs : hex (b :: bs) <> EmptyString.
Proof. discriminate. Qed.

(** ** The string encoder produces JSON string literals *)

Lemma escape_char_chars c raw s :
  json_chars raw s -> json_chars (escape_char c +:+ raw) (String c s).
Proof.
  intros H. destruct c as [[] [] [] [] [] [] [] []];
  lazy;
  first [ by apply jc_plain | by eapply jc_short | by eapply jc_unicode ].
Qed.

Lemma escape_chars s : json_chars (escape s) s.
Proof.
  induction s as [|c s IH]; [constructor |].
  cbn [escape]. by apply escape_char_chars.
Qed.

Lemma encode_basestring_ascii_quoted s :
  encode_basestring_ascii s = quoted (escape s).
Proof. reflexivity. Qed.

Lemma encode_basestring_ascii_value s :
  json_value (encode_basestring_ascii s) (JString s).
Proof. apply jv_string, escape_chars. Qed.

Lemma ws_spaces n : ws (spaces n) = true.
Proof. induction n as [|n IH]; [reflexivity | exact IH]. Qed.

Lemma ws_app s t : ws s = true -> ws t = true -> ws (s +:+ t) = true.
Proof.
  intros Hs Ht. induction s as [|c s IH]; [exact Ht |].
  rewrite append_cons. cbn [ws] in *.
  apply andb_true_iff in Hs as [Hc Hs]. by rewrite Hc, IH.
Qed.

(** ** [json.dumps] of a dictionary of strings is a JSON object *)

Section Dumps.

Variable indent : nat.

Lemma ws_newline_indent : ws (newline_indent indent) = true.
Proof. apply ws_app; [reflexivity | apply ws_spaces]. Qed.

Lemma json_members_text t t' m :
  json_members t m -> t' = t -> json_members t' m.
Proof. by intros H ->. Qed.

Lemma dumps_members kv d :
  json_members
    (newline_indent indent
       +:+ join ("," +:+ newline_indent indent) (map dumps_item (kv :: d))
       +:+ nl)
    (map (fun kv => (kv.1, JString kv.2)) (kv :: d)).
Proof.
  revert kv. induction d as [|kv' d IH]; intros [k v].
  - eapply json_members_text.
    + apply (jm_last (newline_indent indent) (escape k) k EmptyString " "
               (encode_basestring_ascii v) (JString v) nl);
        auto using ws_newline_indent, escape_chars,
          encode_basestring_ascii_value.
    + unfold dumps_item. cbn [map join fst snd].
      by rewrite !encode_basestring_ascii_quoted, ?append_assoc.
  - eapply json_members_text.
    + apply (jm_more (newline_indent indent) (escape k) k EmptyString " "
               (encode_basestring_ascii v) (JString v) EmptyString);
        [auto using ws_newline_indent, escape_chars,
           encode_basestring_ascii_value .. | apply (IH kv')].
    + unfold dumps_item. cbn [map join fst snd].
      by rewrite !encode_basestring_ascii_quoted, ?append_assoc.
Qed.

Lemma json_value_text t t' v : json_value t v -> t' = t -> json_value t' v.
Proof. by intros H ->. Qed.

Lemma json_dumps_value d :
  json_value (json_dumps indent d) (json_of_dict d).
Proof.
  destruct d as [|kv d].
  - by apply (jv_object_empty EmptyString).
  - eapply json_value_text.
    + apply jv_object, (dumps_members kv d).
    + unfold json_dumps. by rewrite ?append_assoc.
Qed.

End Dumps.

(** ** The generated records *)

Section Records.

Variable blake2s :
  forall (data key salt person : list byte), list byte.

Lemma vectors_length : length (vectors blake2s) = 16%nat.
Proof. reflexivity. Qed.

(** The first and last record of each sweep. *)
Example first_salt_record :
  vectors blake2s !! 0%nat = Some (salt_record blake2s 0)
  /\ dict_get "salt" (salt_record blake2s 0) = Some "00"
  /\ dict_get "persona" (salt_record blake2s 0) = Some "".
Proof. by repeat split. Qed.

Example last_salt_record :
  vectors blake2s !! 7%nat = Some (salt_record blake2s 7)
  /\ dict_get "salt" (salt_record blake2s 7) = Some "0001020304050607"
  /\ dict_get "persona" (salt_record blake2s 7) = Some "".
Proof. by repeat split. Qed.

Example first_persona_record :
  vectors blake2s !! 8%nat = Some (persona_record blake2s 0)
  /\ dict_get "persona" (persona_record blake2s 0) = Some "00"
  /\ dict_get "salt" (persona_record blake2s 0) = Some "".
Proof. by repeat split. Qed.

Example last_persona_record :
  vectors blake2s !! 15%nat = Some (persona_record blake2s 7)
  /\ dict_get "persona" (persona_record blake2s 7)
     = Some "0001020304050607"
  /\ dict_get "salt" (persona_record blake2s 7) = Some "".
Proof. by repeat split. Qed.

Example key_field :
  dict_get "key" (salt_record blake2s 0)
  = Some "000102030405060708090a0b0c0d0e0f101112131415161718191a1b1c1d1e1f".
Proof. reflexivity. Qed.

End Records.

(** ** The text of the file *)

Section FileText.

Variable blake2s :
  forall (data key salt person : list byte), list byte.

Lemma persona_chunk_text i :
  persona_chunk blake2s i
  = json_dumps 1 (persona_record blake2s i)
      +:+ (if (i <? 7)%nat then "," else "") +:+ nl.
Proof. unfold persona_chunk. by rewrite append_assoc. Qed.

Lemma written_chunks fd :
  written fd (chunks blake2s)
  = EvWrite fd ("[" +:+ nl) true
      :: record_writes fd (vectors blake2s) ++ [EvWrite fd "]" true].
Proof.
  unfold chunks, vectors, written, record_writes.
  cbn [map app range seq imap].
  rewrite !persona_chunk_text.
  reflexivity.
Qed.

(** The file is the bracketed list of the serialised records, separated
    by a comma and a newline. *)
Lemma file_text_join :
  file_text blake2s
  = "[" +:+ nl
      +:+ join ("," +:+ nl) (map (json_dumps 1) (vectors blake2s))
      +:+ nl +:+ "]".
Proof.
  unfold file_text, chunks, vectors.
  cbn [cat foldr map app range seq join].
  unfold salt_chunk. rewrite !persona_chunk_text.
  cbn [Nat.ltb Nat.leb int_of_bool].
  by rewrite ?append_assoc.
Qed.

Lemma json_elements_text t t' vs :
  json_elements t vs -> t' = t -> json_elements t' vs.
Proof. by intros H ->. Qed.

Lemma dumps_elements indent r rs :
  json_elements
    (nl +:+ join ("," +:+ nl) (map (json_dumps indent) (r :: rs)) +:+ nl)
    (map json_of_dict (r :: rs)).
Proof.
  revert r. induction rs as [|r' rs IH]; intros r.
  - apply (je_last nl (json_dumps indent r) (json_of_dict r) nl);
      auto using json_dumps_value.
  - eapply json_elements_text.
    + apply (je_more nl (json_dumps indent r) (json_of_dict r) EmptyString);
        [auto using json_dumps_value .. | apply (IH r')].
    + cbn [map join]. by rewrite ?append_assoc.
Qed.

Lemma join_snoc sep x xs y :
  join sep ((x :: xs) ++ [y]) = join sep (x :: xs) +:+ sep +:+ y.
Proof.
  revert x. induction xs as [|x' xs IH]; intros x; [reflexivity |].
  change (join sep ((x :: x' :: xs) ++ [y]))
    with (x +:+ sep +:+ join sep ((x' :: xs) ++ [y])).
  rewrite IH. cbn [join]. by rewrite ?append_assoc.
Qed.

(** The file is a JSON text: an array of the 16 records. *)
Lemma file_text_json :
  json_text (file_text blake2s) (JArray (map json_of_dict (vectors blake2s))).
Proof.
  exists EmptyString,
    ("[" +:+ (nl +:+ join ("," +:+ nl)
                       (map (json_dumps 1) (vectors blake2s)) +:+ nl)
         +:+ "]"),
    EmptyString.
  split; [| split; [reflexivity | split; [reflexivity |]]].
  - rewrite file_text_join, append_nil_l, append_nil_r.
    by rewrite ?append_assoc.
  - apply jv_array. apply (dumps_elements 1 (salt_record blake2s 0)).
Qed.

Lemma json_dumps_end indent kv d :
  exists front, json_dumps indent (kv :: d) = front +:+ "}".
Proof.
  unfold json_dumps.
  match goal with
  | |- context [join ?sep ?l] =>
      exists ("{" +:+ (nl +:+ spaces indent) +:+ join sep l +:+ nl)
  end.
  rewrite !append_assoc. reflexivity.
Qed.

(** The last thing before the closing bracket is the closing brace of the
    last record and a newline. *)
Lemma file_text_end :
  exists front, file_text blake2s = front +:+ "}" +:+ nl +:+ "]".
Proof.
  rewrite file_text_join.
  change (vectors blake2s)
    with ((salt_record blake2s 0 :: tail (take 15 (vectors blake2s)))
            ++ [persona_record blake2s 7]).
  rewrite map_app. cbn [map]. rewrite join_snoc.
  destruct (json_dumps_end 1 ("hash", "blake2s")
              (tail (persona_record blake2s 7))) as [front Hfront].
  change (("hash", "blake2s") :: tail (persona_record blake2s 7))
    with (persona_record blake2s 7) in Hfront.
  rewrite Hfront.
  match goal with
  | |- context [join ?sep ?l] =>
      exists ("[" +:+ nl +:+ join sep l +:+ sep +:+ front)
  end.
  rewrite !append_assoc. reflexivity.
Qed.

End FileText.

(** ** Runs of [main] and of the script *)

Lemma not_failed_written fd ds :
  Forall (fun e => failed e = false) (written fd ds).
Proof. unfold written. apply List.Forall_map. by apply Forall_true. Qed.

Section Runs.

Variable blake2s :
  forall (data key salt person : list byte), list byte.

(** A run of [main] that returns has opened the file, performed the 18
    writes and closed the file object, and the file holds the complete
    text. *)
Lemma main_returns output_fn w w' :
  main blake2s output_fn w = (inr tt, w') ->
  can_open w output_fn = true
  /\ w' = World (<[output_fn := file_text blake2s]> (fs w))
            (objects w ++ [FileObject output_fn true EmptyString])
            (stdout w)
            (trace w ++ EvOpen output_fn true
               :: written (length (objects w)) (chunks blake2s)
               ++ [EvClose (length (objects w)) true])
            (can_open w) (pushes w) (accepts w).
Proof.
  intros Hrun. apply main_run in Hrun
    as (Hs & Hco & Hpu & Hac & [(_ & [=] & _) | (Hopen & c' & cl & b' & Hcase)]).
  split; [exact Hopen |].
  destruct Hcase as (Hfs & Hob & [(_ & -> & -> & -> & Ht)
                                 | [([=] & _) | ([=] & _)]]).
  destruct w' as [f o s t co pu ac]. cbn in *. by subst.
Qed.

(** A run of [main] that raises has raised [OSError] at its last call, the
    only one that failed, and has printed nothing. *)
Lemma main_raises output_fn w e w' :
  main blake2s output_fn w = (inl e, w') ->
  e = OSError
  /\ stdout w' = stdout w
  /\ exists before ev,
       trace w' = trace w ++ before ++ [ev]
       /\ Forall (fun e0 => failed e0 = false) before
       /\ failed ev = true.
Proof.
  intros Hrun. apply main_run in Hrun
    as (Hs & _ & _ & _ & [(_ & [= ->] & _ & _ & Ht)
                         | (_ & c' & cl & b' & _ & _ & Hcase)]).
  - split; [reflexivity |]. split; [exact Hs |].
    exists [], (EvOpen output_fn false). by rewrite Ht.
  - destruct Hcase as [([=] & _) | [Hcase | Hcase]].
    + destruct Hcase as ([= ->] & _ & k & d & rest & _ & Ht & _).
      split; [reflexivity |]. split; [exact Hs |].
      exists (EvOpen output_fn true
                :: written (length (objects w)) (take k (chunks blake2s))),
        (EvWrite (length (objects w)) d false).
      split; [exact Ht |]. split; [| reflexivity].
      constructor; [reflexivity | apply not_failed_written].
    + destruct Hcase as ([= ->] & _ & Ht & _).
      split; [reflexivity |]. split; [exact Hs |].
      exists (EvOpen output_fn true
                :: written (length (objects w)) (chunks blake2s)),
        (EvClose (length (objects w)) false).
      split; [exact Ht |]. split; [| reflexivity].
      constructor; [reflexivity | apply not_failed_written].
Qed.

(** With a path argument the script is [main] on that path. *)
Lemma script_with_path prog output_fn rest w :
  script blake2s (prog :: output_fn :: rest) w = main blake2s output_fn w.
Proof. reflexivity. Qed.

(** The records a returning run generated are [vectors]. *)
Lemma main_generates output_fn w w' :
  main blake2s output_fn w = (inr tt, w') ->
  generated output_fn w w' (vectors blake2s).
Proof.
  intros [_ ->]%main_returns. split; cbn [trace fs].
  - rewrite written_chunks. cbn [app]. by rewrite <- app_assoc.
  - exists (file_text blake2s). split; [apply lookup_insert_eq |].
    apply file_text_json.
Qed.

End Runs.

(** ** What the generated records hold *)

Section RecordFields.

Variable blake2s :
  forall (data key salt person : list byte), list byte.

Lemma salt_test_out_is_digest key_bytes salt_bytes :
  out_is_digest blake2s (salt_test blake2s key_bytes salt_bytes).
Proof.
  exists [], key_bytes, salt_bytes, [].
  unfold field_bytes, hexdigest. simpl. rewrite !fromhex_hex.
  by repeat split.
Qed.

Lemma persona_test_out_is_digest key_bytes persona_bytes :
  out_is_digest blake2s (persona_test blake2s key_bytes persona_bytes).
Proof.
  exists [], key_bytes, [], persona_bytes.
  unfold field_bytes, hexdigest. simpl. rewrite !fromhex_hex.
  by repeat split.
Qed.

Lemma vectors_out_is_digest :
  Forall (out_is_digest blake2s) (vectors blake2s).
Proof.
  unfold vectors. apply Forall_app. split; apply List.Forall_map.
  - apply Forall_true. intros i. apply salt_test_out_is_digest.
  - apply Forall_true. intros i. apply persona_test_out_is_digest.
Qed.

Lemma vectors_sweeps :
  Forall2 salt_sweep_shape (seq 0 8) (take 8 (vectors blake2s))
  /\ Forall2 persona_sweep_shape (seq 0 8) (drop 8 (vectors blake2s))
  /\ Forall exactly_one_nonempty (vectors blake2s).
Proof.
  split; [| split].
  - repeat constructor;
      (eexists _, _; split; [reflexivity |]; split; [discriminate |];
       by repeat split).
  - repeat constructor;
      (eexists _, _; split; [reflexivity |]; split; [discriminate |];
       by repeat split).
  - repeat constructor;
      (eexists _, _; split; [reflexivity |]; split; [reflexivity |];
       first [ by left; split | by right; split ]).
Qed.

Lemma vectors_constant_fields :
  Forall (fixed_fields (counting 32)) (vectors blake2s).
Proof. by repeat constructor. Qed.

(** C1: in every run of [main] that returns, each of the 16 records it
    generated has an [out] field that is the hex encoding of, and decodes
    to, the BLAKE2s digest of the empty message under the key, salt and
    persona that the record's own fields decode to; the records of the salt
    sweep have an empty persona and those of the persona sweep an empty
    salt. *)
Theorem out_is_keyed_digest_of_empty_message output_fn w w' :
  main blake2s output_fn w = (inr tt, w') ->
  exists records,
    generated output_fn w w' records
    /\ length records = 16%nat
    /\ Forall (out_is_digest blake2s) records
    /\ Forall (fun r => field_bytes "in" r = Some []) records
    /\ Forall (fun r => field_bytes "persona" r = Some []) (take 8 records)
    /\ Forall (fun r => field_bytes "salt" r = Some []) (drop 8 records).
Proof.
  intros Hrun. exists (vectors blake2s).
  split; [by apply main_generates |]. split; [reflexivity |].
  split; [apply vectors_out_is_digest |].
  by repeat split; repeat constructor.
Qed.

(** C3: in every run of [main] that returns, records 1 to 8 of the 16 it
    generated have an empty [persona] and a [salt] that hex-decodes to the
    [i+1] bytes [0, 1, ..., i] (i = 0..7); records 9 to 16 have an empty
    [salt] and a [persona] that decodes in the same way; so in every record
    exactly one of the two fields is non-empty. *)
Theorem salt_and_persona_sweeps output_fn w w' :
  main blake2s output_fn w = (inr tt, w') ->
  exists records,
    generated output_fn w w' records
    /\ length records = 16%nat
    /\ Forall2 salt_sweep_shape (seq 0 8) (take 8 records)
    /\ Forall2 persona_sweep_shape (seq 0 8) (drop 8 records)
    /\ Forall exactly_one_nonempty records.
Proof.
  intros Hrun. exists (vectors blake2s).
  split; [by apply main_generates |]. split; [reflexivity |].
  apply vectors_sweeps.
Qed.

(** C4: in every run of [main] that returns, each of the 16 records it
    generated has [hash] equal to ["blake2s"], [in] equal to the empty
    string, and a [key] that hex-decodes to one and the same 32-byte
    sequence [0, 1, ..., 31]. *)
Theorem constant_fields output_fn w w' :
  main blake2s output_fn w = (inr tt, w') ->
  exists records key,
    generated output_fn w w' records
    /\ counts_up 32 key
    /\ length records = 16%nat
    /\ Forall (fixed_fields key) records.
Proof.
  intros Hrun. exists (vectors blake2s), (counting 32).
  split; [by apply main_generates |]. split; [by split |].
  split; [reflexivity |]. apply vectors_constant_fields.
Qed.

End RecordFields.

(** ** The command line *)

Section CommandLine.

Variable blake2s :
  forall (data key salt person : list byte), list byte.

(** C6: invoked without a path argument, the program prints the usage
    line to standard output and exits with status 1; no file operation is
    performed and no file is created. *)
Theorem usage_error argv w :
  (length argv < 2)%nat ->
  script blake2s argv w
  = (inl (SystemExit 1),
     set_stdout
       (stdout w +:+ "Usage: gen_vectors.py <path to output file>" +:+ nl)
       w)
  /\ exit_status (script blake2s argv w).1 = 1%Z
  /\ fs (script blake2s argv w).2 = fs w
  /\ trace (script blake2s argv w).2 = trace w.
Proof.
  intros Hlen. destruct argv as [|prog [|output_fn rest]].
  - by repeat split.
  - by repeat split.
  - cbn [length] in Hlen. lia.
Qed.

(** C9: when opening the output file or writing it raises an I/O error, be
    it in [open], in a [fd.write] call or, for text still buffered, in
    [fd.close], the error is the outcome of the script (nothing catches it),
    the process exits with the failure status 1, the failing call is the
    last file operation performed (no retry, nothing after it) and nothing
    is printed. *)
Theorem io_error_propagates prog output_fn rest w r w' :
  script blake2s (prog :: output_fn :: rest) w = (r, w') ->
  Exists (fun e => failed e = true) (drop (length (trace w)) (trace w')) ->
  r = inl OSError
  /\ exit_status r = 1%Z
  /\ (exists before e,
        trace w' = trace w ++ before ++ [e]
        /\ Forall (fun e0 => failed e0 = false) before
        /\ failed e = true)
  /\ stdout w' = stdout w.
Proof.
  rewrite script_with_path. intros Hrun Hfailed.
  destruct r as [e | []].
  - apply main_raises in Hrun as (-> & Hout & before & ev & Ht & Hb & Hev).
    split; [reflexivity |]. split; [reflexivity |]. split; [| exact Hout].
    by exists before, ev.
  - apply main_returns in Hrun as [_ ->]. exfalso.
    cbn [trace] in Hfailed. rewrite drop_app_length in Hfailed.
    apply Exists_cons in Hfailed as [Hf | Hf]; [discriminate |].
    apply Exists_app in Hf as [Hf | Hf].
    + apply Exists_exists in Hf as (e & He & Hf).
      pose proof (not_failed_written (length (objects w)) (chunks blake2s))
        as Hok.
      rewrite Forall_forall in Hok. specialize (Hok e He). congruence.
    + apply Exists_cons in Hf as [Hf | Hf]; [discriminate |].
      by apply Exists_nil in Hf.
Qed.

End CommandLine.

(** ** The file handle and the file content *)

Section Output.

Variable blake2s :
  forall (data key salt person : list byte), list byte.

(** C8, as the code has it: after a successful [open], the file object is
    closed when [main] exits if the 18 writes returned, whether [fd.close]
    then returns or raises; when a [fd.write] call raises, [main] exits with
    that error as its last file operation, [fd.close] is not called and the
    file object is still open. *)
Theorem handle_closed_unless_a_write_raises output_fn w r w' :
  can_open w output_fn = true ->
  main blake2s output_fn w = (r, w') ->
  exists closed buffer,
    objects w' !! length (objects w)
    = Some (FileObject output_fn closed buffer)
    /\ ((r = inr tt /\ closed = true
         /\ exists before,
              trace w'
              = trace w ++ before ++ [EvClose (length (objects w)) true])
        \/ (r = inl OSError /\ closed = true
            /\ exists before,
                 trace w'
                 = trace w ++ before
                     ++ [EvClose (length (objects w)) false])
        \/ (r = inl OSError /\ closed = false
            /\ Forall (fun e => forall ok,
                         e <> EvClose (length (objects w)) ok)
                 (drop (length (trace w)) (trace w'))
            /\ exists before d,
                 trace w'
                 = trace w ++ before
                     ++ [EvWrite (length (objects w)) d false])).
Proof.
  intros Hopen Hrun. apply main_run in Hrun
    as (_ & _ & _ & _ & [(Hno & _) | (_ & c' & cl & b' & _ & Ho & Hcase)]);
    [congruence |].
  exists cl, b'. split; [rewrite Ho; by apply list_lookup_middle |].
  destruct Hcase as [(-> & _ & -> & _ & Ht) | [Hcase | Hcase]].
  - left. split; [reflexivity |]. split; [reflexivity |].
    by exists (EvOpen output_fn true
                 :: written (length (objects w)) (chunks blake2s)).
  - destruct Hcase as (-> & -> & k & d & rest & _ & Ht & _).
    right. right. split; [reflexivity |]. split; [reflexivity |]. split.
    + rewrite Ht, drop_app_length.
      constructor; [discriminate |]. apply Forall_app. split.
      * unfold written. apply List.Forall_map. apply Forall_true.
        discriminate.
      * constructor; [discriminate | constructor].
    + by exists (EvOpen output_fn true
                   :: written (length (objects w))
                        (take k (chunks blake2s))), d.
  - destruct Hcase as (-> & -> & Ht & _).
    right. left. split; [reflexivity |]. split; [reflexivity |].
    by exists (EvOpen output_fn true
                 :: written (length (objects w)) (chunks blake2s)).
Qed.

(** C7: a second run on the same path leaves the file system exactly as
    the first run left it, and every successful run on that path, from
    whatever world, leaves the same text in the file. *)
Theorem rerun_is_byte_identical output_fn w w1 w2 :
  main blake2s output_fn w = (inr tt, w1) ->
  main blake2s output_fn w1 = (inr tt, w2) ->
  fs w2 !! output_fn = fs w1 !! output_fn
  /\ fs w2 = fs w1
  /\ forall v v',
       main blake2s output_fn v = (inr tt, v') ->
       fs v' !! output_fn = fs w1 !! output_fn.
Proof.
  intros [_ ->]%main_returns [_ ->]%main_returns. cbn [fs].
  rewrite insert_insert_eq. split; [reflexivity |]. split; [reflexivity |].
  intros v v' [_ ->]%main_returns. cbn [fs].
  by rewrite !lookup_insert_eq.
Qed.

(** C10: two successful runs on any two paths leave the same text in
    their files; the path only selects which entry of the file system is
    replaced. *)
Theorem content_independent_of_path p1 p2 w1 w2 w1' w2' :
  main blake2s p1 w1 = (inr tt, w1') ->
  main blake2s p2 w2 = (inr tt, w2') ->
  fs w1' !! p1 = fs w2' !! p2
  /\ fs w1' = <[p1 := file_text blake2s]> (fs w1)
  /\ fs w2' = <[p2 := file_text blake2s]> (fs w2).
Proof.
  intros [_ ->]%main_returns [_ ->]%main_returns. cbn [fs].
  by rewrite !lookup_insert_eq.
Qed.

End Output.

(** ** The vector file *)

Section VectorFile.

Variable blake2s :
  forall (data key salt person : list byte), list byte.

(** C2: a successful run writes the 16 records as one ordered sequence:
    after the opening bracket come the 8 records of the salt sweep for
    i = 0..7, then the 8 records of the persona sweep for i = 0..7, each
    in a write of its own, then the closing bracket; the file then holds
    the JSON array of these records in this order, whatever the world and
    the path. *)
Theorem records_written_in_order output_fn w w' :
  main blake2s output_fn w = (inr tt, w') ->
  trace w'
  = trace w
      ++ [EvOpen output_fn true;
          EvWrite (length (objects w)) ("[" +:+ nl) true]
      ++ record_writes (length (objects w)) (vectors blake2s)
      ++ [EvWrite (length (objects w)) "]" true;
          EvClose (length (objects w)) true]
  /\ vectors blake2s
     = map (salt_record blake2s) (seq 0 8)
         ++ map (persona_record blake2s) (seq 0 8)
  /\ length (vectors blake2s) = 16%nat
  /\ exists text,
       fs w' !! output_fn = Some text
       /\ json_text text (JArray (map json_of_dict (vectors blake2s))).
Proof.
  intros [_ ->]%main_returns. cbn [trace fs].
  split; [| split; [reflexivity | split; [reflexivity |]]].
  - rewrite written_chunks. cbn [app]. by rewrite <- app_assoc.
  - exists (file_text blake2s). split; [apply lookup_insert_eq |].
    apply file_text_json.
Qed.

(** C5: the file a successful run leaves is one JSON array of 16
    elements: the serialised records joined by a comma (and a newline),
    with nothing but a newline between the closing brace of the last
    record and the closing bracket. *)
Theorem output_is_json_array output_fn w w' :
  main blake2s output_fn w = (inr tt, w') ->
  exists text items,
    fs w' !! output_fn = Some text
    /\ json_text text (JArray items)
    /\ length items = 16%nat
    /\ text = "[" +:+ nl
                +:+ join ("," +:+ nl)
                      (map (json_dumps 1) (vectors blake2s))
                +:+ nl +:+ "]"
    /\ exists front, text = front +:+ "}" +:+ nl +:+ "]".
Proof.
  intros [_ ->]%main_returns. cbn [fs].
  exists (file_text blake2s), (map json_of_dict (vectors blake2s)).
  split; [apply lookup_insert_eq |]. split; [apply file_text_json |].
  split; [reflexivity |]. split; [apply file_text_join |].
  apply file_text_end.
Qed.

End VectorFile.


(** ** The theorems at sample inputs *)

Lemma records_written_in_order_sample :
  length (trace (main sample_hash "/tmp/vectors.json" calm_world).2) = 20%nat
  /\ exists text,
       fs (main sample_hash "/tmp/vectors.json" calm_world).2
         !! "/tmp/vectors.json" = Some text
       /\ json_text text (JArray (map json_of_dict (vectors sample_hash))).
Proof.
  destruct (records_written_in_order sample_hash "/tmp/vectors.json"
              calm_world
              (main sample_hash "/tmp/vectors.json" calm_world).2)
    as (Ht & _ & _ & Htext).
  - vm_compute. reflexivity.
  - split; [| exact Htext]. rewrite Ht. reflexivity.
Defined.

Lemma output_is_json_array_sample :
  exists text items,
    fs (main sample_hash "/tmp/vectors.json" calm_world).2
      !! "/tmp/vectors.json" = Some text
    /\ json_text text (JArray items)
    /\ length items = 16%nat.
Proof.
  destruct (output_is_json_array sample_hash "/tmp/vectors.json" calm_world
              (main sample_hash "/tmp/vectors.json" calm_world).2)
    as (text & items & Hfile & Hjson & Hlen & _).
  - vm_compute. reflexivity.
  - exists text, items. repeat split; assumption.
Defined.

Lemma usage_error_sample :
  (length ["gen_vectors.py"] < 2)%nat
  /\ exit_status (script sample_hash ["gen_vectors.py"] calm_world).1 = 1%Z
  /\ fs (script sample_hash ["gen_vectors.py"] calm_world).2 = fs calm_world.
Proof.
  assert (Hlen : (length ["gen_vectors.py"] < 2)%nat) by (cbn [length]; lia).
  split; [exact Hlen |].
  destruct (usage_error sample_hash ["gen_vectors.py"] calm_world Hlen)
    as (_ & Hstatus & Hfs & _).
  split; assumption.
Defined.

Lemma io_error_propagates_sample :
  (script sample_hash ["gen_vectors.py"; "/tmp/vectors.json"]
     (limited_world 100)).1 = inl OSError
  /\ exit_status
       (script sample_hash ["gen_vectors.py"; "/tmp/vectors.json"]
          (limited_world 100)).1 = 1%Z.
Proof.
  destruct (io_error_propagates sample_hash
              "gen_vectors.py" "/tmp/vectors.json" [] (limited_world 100)
              (script sample_hash ["gen_vectors.py"; "/tmp/vectors.json"]
                 (limited_world 100)).1
              (script sample_hash ["gen_vectors.py"; "/tmp/vectors.json"]
                 (limited_world 100)).2)
    as (Hr & Hstatus & _).
  - vm_compute. reflexivity.
  - vm_compute.
    repeat first [ by apply Exists_cons_hd | apply Exists_cons_tl ].
  - split; assumption.
Defined.

Lemma handle_closed_unless_a_write_raises_sample :
  can_open (failing_world 3) "/tmp/vectors.json" = true
  /\ exists closed buffer,
       objects (main sample_hash "/tmp/vectors.json" (failing_world 3)).2
         !! 0%nat
       = Some (FileObject "/tmp/vectors.json" closed buffer)
       /\ (((main sample_hash "/tmp/vectors.json" (failing_world 3)).1
            = inr tt /\ closed = true)
           \/ ((main sample_hash "/tmp/vectors.json" (failing_world 3)).1
               = inl OSError)).
Proof.
  split; [reflexivity |].
  destruct (handle_closed_unless_a_write_raises sample_hash
              "/tmp/vectors.json" (failing_world 3)
              (main sample_hash "/tmp/vectors.json" (failing_world 3)).1
              (main sample_hash "/tmp/vectors.json" (failing_world 3)).2)
    as (closed & buffer & Hobj & Hcase).
  - reflexivity.
  - vm_compute. reflexivity.
  - exists closed, buffer. split; [exact Hobj |].
    destruct Hcase as [(Hr & Hc & _) | [(Hr & _) | (Hr & _)]];
      [left; by split | by right | by right].
Defined.

Lemma rerun_is_byte_identical_sample :
  fs (main sample_hash "/tmp/vectors.json"
        (main sample_hash "/tmp/vectors.json" calm_world).2).2
  = fs (main sample_hash "/tmp/vectors.json" calm_world).2.
Proof.
  destruct (rerun_is_byte_identical sample_hash "/tmp/vectors.json"
              calm_world
              (main sample_hash "/tmp/vectors.json" calm_world).2
              (main sample_hash "/tmp/vectors.json"
                 (main sample_hash "/tmp/vectors.json" calm_world).2).2)
    as (_ & Hfs & _).
  - vm_compute. reflexivity.
  - vm_compute. reflexivity.
  - exact Hfs.
Defined.

Lemma content_independent_of_path_sample :
  fs (main sample_hash "/tmp/vectors.json" calm_world).2
    !! "/tmp/vectors.json"
  = fs (main sample_hash "testdata/blake2s.json" calm_world).2
      !! "testdata/blake2s.json".
Proof.
  destruct (content_independent_of_path sample_hash
              "/tmp/vectors.json" "testdata/blake2s.json"
              calm_world calm_world
              (main sample_hash "/tmp/vectors.json" calm_world).2
              (main sample_hash "testdata/blake2s.json" calm_world).2)
    as (Hsame & _).
  - vm_compute. reflexivity.
  - vm_compute. reflexivity.
  - exact Hsame.
Defined.

(** C8, as stated, fails: in a world in which every write is handed over
    at once and the third one is refused, the file is opened, [main] exits
    with [OSError] raised by [fd.write], and the file object it opened is
    not closed. *)
Lemma handle_left_open_when_write_fails :
  can_open (failing_world 3) "/tmp/vectors.json" = true
  /\ (main sample_hash "/tmp/vectors.json" (failing_world 3)).1
     = inl OSError
  /\ fo_closed
       <$> objects (main sample_hash "/tmp/vectors.json" (failing_world 3)).2
             !! 0%nat
     = Some false
  /\ last (trace (main sample_hash "/tmp/vectors.json" (failing_world 3)).2)
     = Some (EvWrite 0 (salt_chunk sample_hash 1) false)
  /\ ~ handle_closed_on_exit sample_hash "/tmp/vectors.json"
         (failing_world 3).
Proof.
  split; [reflexivity |]. split; [by vm_compute |].
  split; [by vm_compute |]. split; [by vm_compute |].
  intros (fo & Hfo & Hclosed).
  assert (fo_closed
            <$> objects (main sample_hash "/tmp/vectors.json"
                           (failing_world 3)).2 !! 0%nat
          = Some false) as H by (by vm_compute).
  cbn [length objects failing_world] in Hfo. rewrite Hfo in H.
  cbn in H. congruence.
Qed.

Lemma out_is_keyed_digest_of_empty_message_sample :
  exists records,
    generated "/tmp/vectors.json" calm_world
      (main sample_hash "/tmp/vectors.json" calm_world).2 records
    /\ length records = 16%nat
    /\ Forall (out_is_digest sample_hash) records.
Proof.
  destruct (out_is_keyed_digest_of_empty_message sample_hash
              "/tmp/vectors.json" calm_world
              (main sample_hash "/tmp/vectors.json" calm_world).2)
    as (records & Hgen & Hlen & Hout & _).
  - vm_compute. reflexivity.
  - by exists records.
Defined.

Lemma salt_and_persona_sweeps_sample :
  exists records,
    generated "/tmp/vectors.json" calm_world
      (main sample_hash "/tmp/vectors.json" calm_world).2 records
    /\ Forall exactly_one_nonempty records.
Proof.
  destruct (salt_and_persona_sweeps sample_hash
              "/tmp/vectors.json" calm_world
              (main sample_hash "/tmp/vectors.json" calm_world).2)
    as (records & Hgen & _ & _ & _ & Hone).
  - vm_compute. reflexivity.
  - by exists records.
Defined.

Lemma constant_fields_sample :
  exists records key,
    generated "/tmp/vectors.json" calm_world
      (main sample_hash "/tmp/vectors.json" calm_world).2 records
    /\ counts_up 32 key
    /\ Forall (fixed_fields key) records.
Proof.
  destruct (constant_fields sample_hash
              "/tmp/vectors.json" calm_world
              (main sample_hash "/tmp/vectors.json" calm_world).2)
    as (records & key & Hgen & Hkey & _ & Hfixed).
  - vm_compute. reflexivity.
  - by exists records, key.
Defined.
(** ** More on the hexadecimal text and on [bytearray(range(n))] *)

Lemma hex_length bs : String.length (hex bs) = (2 * length bs)%nat.
Proof.
  induction bs as [|b bs IH]; [reflexivity |].
  cbn [hex length]. unfold byte_hex. rewrite !append_cons, append_nil_l.
  cbn [String.length]. rewrite IH. lia.
Qed.

Lemma lower_hex_byte_hex b s : lower_hex (byte_hex b +:+ s) = lower_hex s.
Proof. destruct b; reflexivity. Qed.

Lemma lower_hex_hex bs : lower_hex (hex bs) = true.
Proof.
  induction bs as [|b bs IH]; [reflexivity |].
  cbn [hex]. by rewrite lower_hex_byte_hex.
Qed.

Lemma escape_byte_hex b s : escape (byte_hex b +:+ s) = byte_hex b +:+ escape s.
Proof. destruct b; reflexivity. Qed.

Lemma escape_hex bs : escape (hex bs) = hex bs.
Proof.
  induction bs as [|b bs IH]; [reflexivity |].
  cbn [hex]. by rewrite escape_byte_hex, IH.
Qed.

Lemma verbatim_hex bs : verbatim (hex bs).
Proof. unfold verbatim, encode_basestring_ascii, quoted. by rewrite escape_hex. Qed.

(** X10: [bytes.hex] gives two lowercase hexadecimal digits per byte, and
    the text decodes back to the bytes. *)
Theorem hex_decodes_back bs :
  fromhex (hex bs) = Some bs
  /\ String.length (hex bs) = (2 * length bs)%nat
  /\ lower_hex (hex bs) = true.
Proof. auto using fromhex_hex, hex_length, lower_hex_hex. Qed.

Lemma bytearray_seq k : forall s,
  match bytearray (seq s k) with
  | Some bs =>
      map Byte.to_nat bs = seq s k /\ length bs = k
      /\ (k = 0 \/ s + k <= 256)%nat
  | None => (256 < s + k)%nat
  end.
Proof.
  induction k as [|k IH]; intros s; cbn [seq bytearray].
  - split; [reflexivity |]. split; [reflexivity |]. by left.
  - specialize (IH (S s)).
    destruct (Byte.of_nat s) as [b|] eqn:Hb.
    + apply Byte.to_of_nat in Hb.
      destruct (bytearray (seq (S s) k)) as [bs|].
      * destruct IH as (Hmap & Hlen & Hk). cbn [map length].
        rewrite Hb, Hmap, Hlen. split; [reflexivity |].
        split; [reflexivity |]. right.
        pose proof (Byte.to_nat_bounded b). lia.
      * lia.
    + apply Byte.of_nat_None_iff in Hb. lia.
Qed.

(** X11: [bytearray(range(n))] is the [n] bytes [0, 1, ..., n-1] when
    [n <= 256], and raises (is [None]) when [n] is larger. *)
Theorem bytearray_range n :
  match bytearray (range n) with
  | Some bs => (n <= 256)%nat /\ counts_up n bs
  | None => (256 < n)%nat
  end.
Proof.
  unfold range. pose proof (bytearray_seq n 0) as H.
  destruct (bytearray (seq 0 n)) as [bs|]; [| exact H].
  destruct H as (Hmap & Hlen & Hn). split; [lia |]. by split.
Qed.

(** ** More on the records *)

Section MoreRecords.

Variable blake2s :
  forall (data key salt person : list byte), list byte.

Lemma hex_field_hex r name bs :
  dict_get name r = Some (hex bs) -> hex_field r name.
Proof.
  intros Hget. exists (hex bs). split; [exact Hget |].
  split; [apply lower_hex_hex |]. split.
  - rewrite hex_length. by exists (length bs).
  - rewrite fromhex_hex. by eexists.
Qed.

Lemma salt_test_hex_fields key_bytes salt_bytes :
  Forall (hex_field (salt_test blake2s key_bytes salt_bytes))
    ["key"; "salt"; "persona"; "out"].
Proof.
  repeat apply List.Forall_cons; try apply List.Forall_nil.
  - by apply (hex_field_hex _ _ key_bytes).
  - by apply (hex_field_hex _ _ salt_bytes).
  - by apply (hex_field_hex _ _ []).
  - by apply (hex_field_hex _ _ (blake2s [] key_bytes salt_bytes [])).
Qed.

Lemma persona_test_hex_fields key_bytes persona_bytes :
  Forall (hex_field (persona_test blake2s key_bytes persona_bytes))
    ["key"; "salt"; "persona"; "out"].
Proof.
  repeat apply List.Forall_cons; try apply List.Forall_nil.
  - by apply (hex_field_hex _ _ key_bytes).
  - by apply (hex_field_hex _ _ []).
  - by apply (hex_field_hex _ _ persona_bytes).
  - by apply (hex_field_hex _ _ (blake2s [] key_bytes [] persona_bytes)).
Qed.

Lemma salt_test_verbatim key_bytes salt_bytes :
  Forall (fun kv => verbatim kv.1 /\ verbatim kv.2)
    (salt_test blake2s key_bytes salt_bytes).
Proof.
  unfold salt_test, hexdigest.
  repeat apply List.Forall_cons; try apply List.Forall_nil;
    (split; [reflexivity | first [reflexivity | apply verbatim_hex]]).
Qed.

Lemma persona_test_verbatim key_bytes persona_bytes :
  Forall (fun kv => verbatim kv.1 /\ verbatim kv.2)
    (persona_test blake2s key_bytes persona_bytes).
Proof.
  unfold persona_test, hexdigest.
  repeat apply List.Forall_cons; try apply List.Forall_nil;
    (split; [reflexivity | first [reflexivity | apply verbatim_hex]]).
Qed.

Lemma vectors_hex_fields :
  Forall (fun r => Forall (hex_field r) ["key"; "salt"; "persona"; "out"])
    (vectors blake2s).
Proof.
  unfold vectors. apply Forall_app. split; apply List.Forall_map.
  - apply Forall_true. intros i. apply salt_test_hex_fields.
  - apply Forall_true. intros i. apply persona_test_hex_fields.
Qed.

Lemma vectors_verbatim :
  Forall (fun r => Forall (fun kv => verbatim kv.1 /\ verbatim kv.2) r)
    (vectors blake2s).
Proof.
  unfold vectors. apply Forall_app. split; apply List.Forall_map.
  - apply Forall_true. intros i. apply salt_test_verbatim.
  - apply Forall_true. intros i. apply persona_test_verbatim.
Qed.

Lemma vectors_within_limits :
  Forall (within_limits blake2s) (vectors blake2s).
Proof.
  repeat constructor;
    (eexists _, _, _; split; [reflexivity |]; split; [reflexivity |];
     split; [reflexivity |]; split; [reflexivity |];
     split; [cbn [length]; lia |]; split; [cbn [length]; lia |];
     reflexivity).
Qed.

Lemma vectors_distinct :
  NoDup (map (fun r => (dict_get "salt" r, dict_get "persona" r))
           (vectors blake2s)).
Proof. apply (bool_decide_unpack _). by vm_compute. Qed.

(** X6: in every run of [main] that returns, whatever the hash function,
    the fields [key], [salt], [persona] and [out] of every record it
    generated are lowercase hexadecimal text of even length that decodes to
    bytes. *)
Theorem hex_fields_are_lowercase_hex output_fn w w' :
  main blake2s output_fn w = (inr tt, w') ->
  exists records,
    generated output_fn w w' records
    /\ Forall (fun r => Forall (hex_field r)
                          ["key"; "salt"; "persona"; "out"]) records.
Proof.
  intros Hrun. exists (vectors blake2s).
  split; [by apply main_generates | apply vectors_hex_fields].
Qed.

(** X7: in every run of [main] that returns, no key and no value of any
    record it generated needs escaping: the string encoder writes each of
    them as it is, between two quotes. *)
Theorem records_are_written_verbatim output_fn w w' :
  main blake2s output_fn w = (inr tt, w') ->
  exists records,
    generated output_fn w w' records
    /\ Forall (fun r => Forall (fun kv => verbatim kv.1 /\ verbatim kv.2) r)
         records.
Proof.
  intros Hrun. exists (vectors blake2s).
  split; [by apply main_generates | apply vectors_verbatim].
Qed.

(** X8: in every run of [main] that returns, every digest in the records
    it generated comes from a call of the hash within the limits of
    BLAKE2s: empty message, 32-byte key, at most 8 bytes of salt and of
    persona. *)
Theorem hash_calls_within_limits output_fn w w' :
  main blake2s output_fn w = (inr tt, w') ->
  exists records,
    generated output_fn w w' records
    /\ Forall (within_limits blake2s) records.
Proof.
  intros Hrun. exists (vectors blake2s).
  split; [by apply main_generates | apply vectors_within_limits].
Qed.

(** X9: in every run of [main] that returns, no two of the records it
    generated have the same salt and persona: the 16 records are 16
    different configurations. *)
Theorem records_are_distinct_configurations output_fn w w' :
  main blake2s output_fn w = (inr tt, w') ->
  exists records,
    generated output_fn w w' records
    /\ length records = 16%nat
    /\ NoDup (map (fun r => (dict_get "salt" r, dict_get "persona" r))
                records).
Proof.
  intros Hrun. exists (vectors blake2s).
  split; [by apply main_generates |]. split; [reflexivity |].
  apply vectors_distinct.
Qed.

(** X13: when the hash returns 32-byte digests, in every run of [main]
    that returns the [out] field of every record it generated is 64
    characters long. *)
Theorem out_has_64_digits output_fn w w' :
  (forall data key salt person,
     length (blake2s data key salt person) = 32%nat) ->
  main blake2s output_fn w = (inr tt, w') ->
  exists records,
    generated output_fn w w' records
    /\ Forall (fun r => exists s,
                 dict_get "out" r = Some s /\ String.length s = 64%nat)
         records.
Proof.
  intros Hlen Hrun. exists (vectors blake2s).
  split; [by apply main_generates |].
  repeat constructor;
    (eexists; split; [reflexivity |];
     unfold hexdigest; by rewrite hex_length, Hlen).
Qed.

(** X12: for every indent given as a natural number and every list of
    pairs of strings, the text [json.dumps] returns is a JSON object whose
    members are the pairs, in order. *)
Theorem serialised_dict_is_json_object indent d :
  json_value (json_dumps indent d)
    (JObject (map (fun kv => (kv.1, JString kv.2)) d)).
Proof. apply json_dumps_value. Qed.

End MoreRecords.

(** ** More on the runs *)

Lemma forallb_written p fd ds :
  forallb (own_event p fd) (written fd ds) = true.
Proof.
  induction ds as [|d ds IH]; [reflexivity |].
  cbn [written map forallb own_event]. rewrite Nat.eqb_refl. exact IH.
Qed.

Lemma filter_open_written fd ds :
  List.filter is_open_event (written fd ds) = [].
Proof. induction ds as [|d ds IH]; [reflexivity | exact IH]. Qed.

Lemma append_nonempty_l (s t : string) :
  s <> EmptyString -> s +:+ t <> EmptyString.
Proof. destruct s; [congruence | discriminate]. Qed.

Section MoreRuns.

Variable blake2s :
  forall (data key salt person : list byte), list byte.

(** X1: the script ends in one of three ways: it returns, it exits with
    status 1 after the usage message (exactly when there is no path
    argument), or an [OSError] escapes; the exit status is 0 exactly when it
    returns and 1 otherwise. *)
Theorem script_outcomes argv w :
  let r := (script blake2s argv w).1 in
  (r = inr tt \/ r = inl OSError \/ r = inl (SystemExit 1))
  /\ (r = inl (SystemExit 1) <-> (length argv < 2)%nat)
  /\ (exit_status r = 0%Z <-> r = inr tt)
  /\ (exit_status r = 0%Z \/ exit_status r = 1%Z).
Proof.
  destruct argv as [|prog [|output_fn rest]].
  - cbn. repeat split; auto; try discriminate; lia.
  - cbn. repeat split; auto; try discriminate; lia.
  - rewrite script_with_path. cbn [length].
    destruct (main blake2s output_fn w) as [[e | []] w'] eqn:Hrun; cbn.
    + apply main_raises in Hrun as [-> _].
      repeat split; auto; try discriminate; lia.
    + repeat split; auto; try discriminate; lia.
Qed.

(** X2: whatever the outcome, [main] leaves every file other than
    [output_fn] as it was, leaves the file objects that existed as they
    were and creates at most one, prints nothing, and only adds to the
    record of file operations. *)
Theorem main_changes_only_its_file output_fn w :
  let w' := (main blake2s output_fn w).2 in
  delete output_fn (fs w') = delete output_fn (fs w)
  /\ take (length (objects w)) (objects w') = objects w
  /\ (length (objects w') <= S (length (objects w)))%nat
  /\ stdout w' = stdout w
  /\ take (length (trace w)) (trace w') = trace w.
Proof.
  destruct (main blake2s output_fn w) as [r w'] eqn:Hrun. cbn [snd].
  apply main_run in Hrun
    as (Hs & _ & _ & _ & [(_ & _ & Hfs & Ho & Ht)
                         | (_ & c' & cl & b' & Hfs & Ho & Hcase)]).
  - rewrite Hfs, Ho, Ht, take_app_length, firstn_all.
    repeat split; [lia | exact Hs].
  - rewrite Hfs, Ho, delete_insert_eq, take_app_length, length_app.
    split; [reflexivity |]. split; [reflexivity |].
    split; [cbn [length]; lia |]. split; [exact Hs |].
    destruct Hcase as [(_ & _ & _ & _ & ->)
                      | [(_ & _ & k & d & rest & _ & -> & _)
                        | (_ & _ & -> & _)]];
      apply take_app_length.
Qed.

(** X14: every file operation of [main] is on [output_fn] or on the file
    object opened for it, and there is exactly one [open] (no second
    attempt), whatever the outcome. *)
Theorem main_operates_on_its_file_only output_fn w :
  let new := drop (length (trace w))
               (trace (main blake2s output_fn w).2) in
  forallb (own_event output_fn (length (objects w))) new = true
  /\ length (List.filter is_open_event new) = 1%nat.
Proof.
  destruct (main blake2s output_fn w) as [r w'] eqn:Hrun. cbn [snd].
  apply main_run in Hrun
    as (_ & _ & _ & _ & [(_ & _ & _ & _ & ->)
                        | (_ & c' & cl & b' & _ & _ & Hcase)]).
  - rewrite drop_app_length. cbn. by rewrite String.eqb_refl.
  - destruct Hcase as [(_ & _ & _ & _ & ->)
                      | [(_ & _ & k & d & rest & _ & -> & _)
                        | (_ & _ & -> & _)]];
      rewrite drop_app_length;
      cbn [forallb own_event List.filter is_open_event length];
      rewrite String.eqb_refl, forallb_app, List.filter_app,
        forallb_written, filter_open_written;
      cbn [forallb own_event List.filter is_open_event app length];
      by rewrite Nat.eqb_refl.
Qed.

(** X3: when the file cannot be opened, [main] raises [OSError] at the
    [open] and changes no file and no file object: a file that existed at
    the path keeps its content. *)
Theorem open_failure_changes_nothing output_fn w :
  can_open w output_fn = false ->
  main blake2s output_fn w = (inl OSError, log (EvOpen output_fn false) w)
  /\ fs (main blake2s output_fn w).2 = fs w
  /\ objects (main blake2s output_fn w).2 = objects w.
Proof.
  intros Hopen. rewrite main_as_writes. unfold bind, open_w.
  by rewrite Hopen.
Qed.

(** X4: when the file was opened and a [fd.write] call or [fd.close] then
    raises, the file holds a proper prefix of the complete text, possibly
    empty and not necessarily cut where a write ends, whatever the file
    held before the run. *)
Theorem write_failure_leaves_a_prefix output_fn w e w' :
  can_open w output_fn = true ->
  main blake2s output_fn w = (inl e, w') ->
  exists content rest,
    fs w' !! output_fn = Some content
    /\ rest <> EmptyString
    /\ file_text blake2s = content +:+ rest.
Proof.
  intros Hopen Hrun. apply main_run in Hrun
    as (_ & _ & _ & _ & [(Hno & _) | (_ & c' & cl & b' & Hfs & _ & Hcase)]);
    [congruence |].
  destruct Hcase as [([=] & _)
                    | [(_ & _ & k & d & rest & _ & _ & Hne & Hrest)
                      | (_ & _ & _ & rest & Hne & Hrest)]].
  - exists c', (rest +:+ cat (drop (S k) (chunks blake2s))).
    split; [rewrite Hfs; apply lookup_insert_eq |].
    split; [by apply append_nonempty_l |].
    rewrite <- append_assoc, Hrest. unfold file_text.
    by rewrite <- cat_app, take_drop.
  - exists c', rest. split; [rewrite Hfs; apply lookup_insert_eq |].
    by split.
Qed.

End MoreRuns.

Lemma out_has_64_digits_sample :
  exists records,
    generated "/tmp/vectors.json" calm_world
      (main sample_hash32 "/tmp/vectors.json" calm_world).2 records
    /\ Forall (fun r => exists s,
                 dict_get "out" r = Some s /\ String.length s = 64%nat)
         records.
Proof.
  apply (out_has_64_digits sample_hash32 "/tmp/vectors.json" calm_world).
  - intros. reflexivity.
  - vm_compute. reflexivity.
Defined.

Lemma open_failure_changes_nothing_sample :
  can_open (with_file "/tmp/vectors.json" "old" readonly_world)
    "/tmp/vectors.json" = false
  /\ fs (main sample_hash "/tmp/vectors.json"
           (with_file "/tmp/vectors.json" "old" readonly_world)).2
       !! "/tmp/vectors.json" = Some "old".
Proof.
  split; [reflexivity |].
  destruct (open_failure_changes_nothing sample_hash "/tmp/vectors.json"
              (with_file "/tmp/vectors.json" "old" readonly_world))
    as (_ & -> & _).
  - reflexivity.
  - by vm_compute.
Defined.

Lemma write_failure_leaves_a_prefix_sample :
  exists content rest,
    fs (main sample_hash "/tmp/vectors.json"
          (with_file "/tmp/vectors.json" "old" (limited_world 100))).2
      !! "/tmp/vectors.json" = Some content
    /\ rest <> EmptyString
    /\ file_text sample_hash = content +:+ rest.
Proof.
  apply (write_failure_leaves_a_prefix sample_hash "/tmp/vectors.json"
           (with_file "/tmp/vectors.json" "old" (limited_world 100))
           OSError).
  - reflexivity.
  - vm_compute. reflexivity.
Defined.

Lemma hex_fields_are_lowercase_hex_sample :
  exists records,
    generated "/tmp/vectors.json" calm_world
      (main sample_hash "/tmp/vectors.json" calm_world).2 records
    /\ Forall (fun r => Forall (hex_field r)
                          ["key"; "salt"; "persona"; "out"]) records.
Proof.
  apply (hex_fields_are_lowercase_hex sample_hash "/tmp/vectors.json"
           calm_world).
  vm_compute. reflexivity.
Defined.

Lemma records_are_written_verbatim_sample :
  exists records,
    generated "/tmp/vectors.json" calm_world
      (main sample_hash "/tmp/vectors.json" calm_world).2 records
    /\ Forall (fun r => Forall (fun kv => verbatim kv.1 /\ verbatim kv.2) r)
         records.
Proof.
  apply (records_are_written_verbatim sample_hash "/tmp/vectors.json"
           calm_world).
  vm_compute. reflexivity.
Defined.

Lemma hash_calls_within_limits_sample :
  exists records,
    generated "/tmp/vectors.json" calm_world
      (main sample_hash "/tmp/vectors.json" calm_world).2 records
    /\ Forall (within_limits sample_hash) records.
Proof.
  apply (hash_calls_within_limits sample_hash "/tmp/vectors.json"
           calm_world).
  vm_compute. reflexivity.
Defined.

Lemma records_are_distinct_configurations_sample :
  exists records,
    generated "/tmp/vectors.json" calm_world
      (main sample_hash "/tmp/vectors.json" calm_world).2 records
    /\ length records = 16%nat
    /\ NoDup (map (fun r => (dict_get "salt" r, dict_get "persona" r))
                records).
Proof.
  apply (records_are_distinct_configurations sample_hash
           "/tmp/vectors.json" calm_world).
  vm_compute. reflexivity.
Defined.
